(** * PSL.packet_handler: the link layer of the PSLab host library

    A shallow embedding of [Handler] (src/PSL/packet_handler.py): the
    connection methods ([connect], [disconnect], [reconnect], [get_version]),
    the send and receive primitives ([_send], [_receive], [get_ack]), burst
    mode ([send_burst]) and the bulk flash methods ([read_bulk_flash],
    [write_bulk_flash]).

    The handler object and the serial line are an explicit state, and every
    method is a computation in a state-and-exception monad: a Python
    exception leaves the assignments made before it in place, so a raised
    exception carries the state it left behind.  The peer is a script of
    read results, so that every statement below holds whatever the peer
    sends and whenever its bytes arrive. *)

From Stdlib Require Import ZArith List String Ascii Bool Lia QArith.
From Stdlib Require Import Strings.Byte.
Import ListNotations.
Open Scope Z_scope.

(** ** Bytes and text *)

(** A Python [bytes] object. *)
Definition bytes := list byte.

(** A Python [str]: its sequence of Unicode code points. *)
Definition str := list Z.

Definition byte_val (b : byte) : Z := Z.of_N (Byte.to_N b).

Definition byte_of (z : Z) : byte :=
  match Byte.of_N (Z.to_N (z mod 256)) with
  | Some b => b
  | None => x00
  end.

Definition len {A} (l : list A) : Z := Z.of_nat (List.length l).

(** [l[:n]], with Python's reading of a negative bound. *)
Definition slice_to {A} (n : Z) (l : list A) : list A :=
  if n <? 0 then firstn (Z.to_nat (len l + n)) l else firstn (Z.to_nat n) l.

(** [b"\x00" * n]: nothing when [n <= 0]. *)
Definition zeros (n : Z) : bytes := repeat x00 (Z.to_nat n).

Definition str_of_string (s : string) : str :=
  map (fun a => Z.of_N (N_of_ascii a)) (list_ascii_of_string s).

Fixpoint Zlist_eqb (a b : list Z) : bool :=
  match a, b with
  | [], [] => true
  | x :: a', y :: b' => (x =? y) && Zlist_eqb a' b'
  | _, _ => false
  end.

(** [a == b] on [bytes]. *)
Fixpoint bytes_eqb (a b : bytes) : bool :=
  match a, b with
  | [], [] => true
  | x :: a', y :: b' => Byte.eqb x y && bytes_eqb a' b'
  | _, _ => false
  end.

(** [needle in hay] on [str]. *)
Fixpoint str_in (needle hay : str) : bool :=
  Zlist_eqb needle (firstn (List.length needle) hay) ||
  match hay with
  | [] => false
  | _ :: hay' => str_in needle hay'
  end.

(** ** Exceptions and results *)

Inductive exn :=
| ValueError (msg : string)
| struct_error
| SerialException (msg : string)
| PortNotOpenError
| UnicodeDecodeError
| UnicodeEncodeError
| RuntimeError (msg : string)
| AttributeError (msg : string).

Inductive Res (A : Type) :=
| Ok (a : A)
| Raise (e : exn).
Arguments Ok {A} a.
Arguments Raise {A} e.

(** The exception a result carries, if any. *)
Definition raised {A} (r : Res A) : option exn :=
  match r with
  | Ok _ => None
  | Raise e => Some e
  end.

(** ** UTF-8, as [bytes.decode("utf-8")] and [str.encode("utf-8")] *)

Definition continuation (b : byte) : option Z :=
  let v := byte_val b in
  if (128 <=? v) && (v <=? 191) then Some (v - 128) else None.

Fixpoint utf8_decode (bs : bytes) : option str :=
  match bs with
  | [] => Some []
  | b0 :: t0 =>
    let v0 := byte_val b0 in
    if v0 <? 128 then option_map (cons v0) (utf8_decode t0)
    else if v0 <? 194 then None
    else if v0 <? 224 then
      match t0 with
      | b1 :: t1 =>
        match continuation b1 with
        | Some c1 => option_map (cons ((v0 - 192) * 64 + c1)) (utf8_decode t1)
        | None => None
        end
      | _ => None
      end
    else if v0 <? 240 then
      match t0 with
      | b1 :: b2 :: t2 =>
        match continuation b1, continuation b2 with
        | Some c1, Some c2 =>
          let cp := (v0 - 224) * 4096 + c1 * 64 + c2 in
          if (cp <? 2048) || ((55296 <=? cp) && (cp <=? 57343)) then None
          else option_map (cons cp) (utf8_decode t2)
        | _, _ => None
        end
      | _ => None
      end
    else if v0 <? 245 then
      match t0 with
      | b1 :: b2 :: b3 :: t3 =>
        match continuation b1, continuation b2, continuation b3 with
        | Some c1, Some c2, Some c3 =>
          let cp := (v0 - 240) * 262144 + c1 * 4096 + c2 * 64 + c3 in
          if (cp <? 65536) || (1114111 <? cp) then None
          else option_map (cons cp) (utf8_decode t3)
        | _, _, _ => None
        end
      | _ => None
      end
    else None
  end.

Definition utf8_encode_cp (cp : Z) : option bytes :=
  if cp <? 0 then None
  else if cp <? 128 then Some [byte_of cp]
  else if cp <? 2048 then Some [byte_of (192 + cp / 64); byte_of (128 + cp mod 64)]
  else if cp <? 65536 then
    if (55296 <=? cp) && (cp <=? 57343) then None
    else Some [byte_of (224 + cp / 4096); byte_of (128 + (cp / 64) mod 64);
               byte_of (128 + cp mod 64)]
  else if cp <? 1114112 then
    Some [byte_of (240 + cp / 262144); byte_of (128 + (cp / 4096) mod 64);
          byte_of (128 + (cp / 64) mod 64); byte_of (128 + cp mod 64)]
  else None.

Fixpoint utf8_encode (s : str) : option bytes :=
  match s with
  | [] => Some []
  | cp :: s' =>
    match utf8_encode_cp cp, utf8_encode s' with
    | Some b, Some bs => Some (b ++ bs)
    | _, _ => None
    end
  end.

(** ** The integer codecs of PSL.commands_proto *)

(** The little-endian digits of [v], [w] of them. *)
Fixpoint le_bytes (w : nat) (v : Z) : bytes :=
  match w with
  | O => []
  | S w' => byte_of v :: le_bytes w' (v / 256)
  end.

(** [int.from_bytes(bs, byteorder="little", signed=False)]. *)
Fixpoint le_value (bs : bytes) : Z :=
  match bs with
  | [] => 0
  | b :: bs' => byte_val b + 256 * le_value bs'
  end.

(** A [struct.Struct] holding one unsigned integer of [width] bytes. *)
Record Struct := mkStruct { width : nat }.

(** [packer.pack(value)]: struct.error unless [0 <= value < 256 ** width]. *)
Definition pack (s : Struct) (value : Z) : Res bytes :=
  if (0 <=? value) && (value <? 256 ^ Z.of_nat (width s))
  then Ok (le_bytes (width s) value)
  else Raise struct_error.

(** [unpacker.unpack(buffer)[0]]: struct.error unless the buffer has exactly
    [width] bytes. *)
Definition unpack (s : Struct) (buffer : bytes) : Res Z :=
  if (List.length buffer =? width s)%nat then Ok (le_value buffer) else Raise struct_error.

(** Modelled from the spec: PSL/commands_proto.py is not among the sources.
    [_get_integer_type] is annotated to return [struct.Struct], and section
    4.1 gives the three codecs it selects as the 1-, 2- and 4-byte unsigned
    little-endian integers. *)
Definition Byte : Struct := mkStruct 1.
Definition ShortInt : Struct := mkStruct 2.
Definition Integer : Struct := mkStruct 4.

(** The command tokens of PSL.commands_proto that the handler sends: opaque
    byte strings, whatever the catalog holds. *)
Record commands_proto := mkCP {
  COMMON : bytes;
  GET_VERSION : bytes;
  FLASH : bytes;
  READ_BULK_FLASH : bytes;
  WRITE_BULK_FLASH : bytes }.

(** ** The serial line and the handler object *)

(** A pyserial [Serial] object. *)
Record Serial := mkSerial {
  port : option string;
  baudrate : Z;
  timeout : option Q;
  write_timeout : option Q;
  is_open : bool }.

(** What the methods of the handler ask of the operating system, in order.
    The close that Python makes on its own when the last reference to a
    [Serial] goes is not a call of the handler and is not recorded. *)
Inductive event :=
| EvOpen (p : string)
| EvClose
| EvWrite (b : bytes)
| EvRead (n : Z)
| EvReadline.

Inductive log_record :=
| info_connected (version : str) (p : option string)
| info_read (n page : Z) (ss : bytes)
| info_writing (n page : Z) (data : bytes)
| error_exception (e : exn)
| error_requested (size got : Z).

(** The world outside the handler.  [rx] is the script of the peer: the bytes
    that each successive blocking read finds before its timeout. *)
Record World := mkWorld {
  openable : list string;
  comports : list string;
  rx : list bytes;
  trace : list event;
  log : list log_record }.

(** The attributes of a [Handler] that its methods read or assign.  The
    aliases kept for old callers ([fd], [connected], [portname], ...) are
    assigned and never read by this file, and are left out. *)
Record Handler := mkHandler {
  burst_buffer : bytes;
  load_burst : bool;
  input_queue_size : Z;
  version : str;
  interface : Serial }.

Definition State : Type := Handler * World.

Definition M (A : Type) : Type := State -> Res A * State.

Definition ret {A} (a : A) : M A := fun st => (Ok a, st).

Definition raise {A} (e : exn) : M A := fun st => (Raise e, st).

Definition bind {A B} (c : M A) (k : A -> M B) : M B :=
  fun st =>
    match c st with
    | (Ok a, st') => k a st'
    | (Raise e, st') => (Raise e, st')
    end.

(** [try: c  except Exception as e: h e]. *)
Definition try_except {A} (c : M A) (h : exn -> M A) : M A :=
  fun st =>
    match c st with
    | (Ok a, st') => (Ok a, st')
    | (Raise e, st') => h e st'
    end.

Definition lift {A} (r : Res A) : M A := fun st => (r, st).

Declare Scope py_scope.
Delimit Scope py_scope with py.
Notation "x <- c ;; k" := (bind c (fun x => k))
  (at level 61, c at next level, right associativity) : py_scope.
Notation "c ;; k" := (bind c (fun _ => k))
  (at level 61, right associativity) : py_scope.
Open Scope py_scope.

Definition gets {A} (f : Handler -> A) : M A := fun st => (Ok (f (fst st)), st).

Definition modify (f : Handler -> Handler) : M unit :=
  fun st => (Ok tt, (f (fst st), snd st)).

Definition set_burst_buffer (b : bytes) (h : Handler) : Handler :=
  mkHandler b (load_burst h) (input_queue_size h) (version h) (interface h).

Definition set_load_burst (f : bool) (h : Handler) : Handler :=
  mkHandler (burst_buffer h) f (input_queue_size h) (version h) (interface h).

Definition set_input_queue_size (n : Z) (h : Handler) : Handler :=
  mkHandler (burst_buffer h) (load_burst h) n (version h) (interface h).

Definition set_version (v : str) (h : Handler) : Handler :=
  mkHandler (burst_buffer h) (load_burst h) (input_queue_size h) v (interface h).

Definition set_interface (s : Serial) (h : Handler) : Handler :=
  mkHandler (burst_buffer h) (load_burst h) (input_queue_size h) (version h) s.

Definition set_port (p : option string) (s : Serial) : Serial :=
  mkSerial p (baudrate s) (timeout s) (write_timeout s) (is_open s).

Definition set_is_open (o : bool) (s : Serial) : Serial :=
  mkSerial (port s) (baudrate s) (timeout s) (write_timeout s) o.

Definition emit (e : event) (w : World) : World :=
  mkWorld (openable w) (comports w) (rx w) (trace w ++ [e]) (log w).

Definition set_rx (r : list bytes) (w : World) : World :=
  mkWorld (openable w) (comports w) r (trace w) (log w).

Definition record (r : log_record) (w : World) : World :=
  mkWorld (openable w) (comports w) (rx w) (trace w) (log w ++ [r]).

(** [logger.info(...)] and [logger.error(...)]. *)
Definition logger (r : log_record) : M unit :=
  fun st => (Ok tt, (fst st, record r (snd st))).

(** ** pyserial, as the handler uses it

    [serial.Serial] is a library class.  Its documented behaviour is what is
    modelled: the constructor opens the port when it is given one; [open]
    refuses a port that is not configured or already open; assigning [port]
    on an open object closes it and opens the new port; [close] is
    idempotent; [read] and [write] raise on a port that is not open; a read
    returns at most the bytes asked for and fewer when the timeout runs
    out. *)

Definition can_open (p : string) (w : World) : bool :=
  existsb (String.eqb p) (openable w).

(** [serial.Serial(port=..., baudrate=..., timeout=..., write_timeout=...)]:
    the constructor opens the port when one is given. *)
Definition serial_Serial (p : option string) (baud : Z) (t wt : option Q) : M Serial :=
  fun st =>
    match p with
    | None => (Ok (mkSerial None baud t wt false), st)
    | Some name =>
      if can_open name (snd st)
      then (Ok (mkSerial (Some name) baud t wt true), (fst st, emit (EvOpen name) (snd st)))
      else (Raise (SerialException "could not open port"), st)
    end.

(** [self.interface.open()]. *)
Definition interface_open : M unit :=
  fun st =>
    let s := interface (fst st) in
    match port s with
    | None => (Raise (SerialException "Port must be configured before it can be used."), st)
    | Some name =>
      if is_open s then (Raise (SerialException "Port is already open."), st)
      else if can_open name (snd st)
      then (Ok tt, (set_interface (set_is_open true s) (fst st), emit (EvOpen name) (snd st)))
      else (Raise (SerialException "could not open port"), st)
    end.

(** [self.interface.close()]: does nothing on a closed port. *)
Definition interface_close : M unit :=
  fun st =>
    let s := interface (fst st) in
    if is_open s
    then (Ok tt, (set_interface (set_is_open false s) (fst st), emit EvClose (snd st)))
    else (Ok tt, st).

(** [self.interface.port = name]: an open port is closed and reopened. *)
Definition interface_set_port (name : string) : M unit :=
  was_open <- gets (fun h => is_open (interface h));;
  (if was_open : bool then interface_close else ret tt);;
  modify (fun h => set_interface (set_port (Some name) (interface h)) h);;
  (if was_open : bool then interface_open else ret tt).

(** [self.interface.write(data)]. *)
Definition interface_write (data : bytes) : M unit :=
  fun st =>
    if is_open (interface (fst st))
    then (Ok tt, (fst st, emit (EvWrite data) (snd st)))
    else (Raise PortNotOpenError, st).

(** What a blocking read of [size] bytes obtains from the peer's script, and
    the script that is left: at most [size] bytes, fewer on a timeout, and
    nothing is waited for when [size <= 0]. *)
Definition obtain (size : Z) (script : list bytes) : bytes * list bytes :=
  if size <=? 0 then ([], script)
  else
    match script with
    | [] => ([], [])
    | r :: rest => (firstn (Z.to_nat size) r, rest)
    end.

(** [self.interface.read(size)]. *)
Definition interface_read (size : Z) : M bytes :=
  fun st =>
    if is_open (interface (fst st)) then
      let w := emit (EvRead size) (snd st) in
      (Ok (fst (obtain size (rx w))), (fst st, set_rx (snd (obtain size (rx w))) w))
    else (Raise PortNotOpenError, st).

(** The bytes of [bs] up to and including its first newline. *)
Fixpoint line_of (bs : bytes) : bytes :=
  match bs with
  | [] => []
  | b :: bs' => if Byte.eqb b x0a then [b] else b :: line_of bs'
  end.

(** [self.interface.readline()]. *)
Definition interface_readline : M bytes :=
  fun st =>
    if is_open (interface (fst st)) then
      let w := emit EvReadline (snd st) in
      match rx w with
      | [] => (Ok [], (fst st, w))
      | r :: rest => (Ok (line_of r), (fst st, set_rx rest w))
      end
    else (Raise PortNotOpenError, st).

(** ** The methods of Handler *)

(** A value handed to [_send]: [Union[bytes, int]]. *)
Inductive value :=
| VBytes (b : bytes)
| VInt (z : Z).

(** The data handed to [write_bulk_flash]: [Union[bytes, str]]. *)
Inductive flash_data :=
| DBytes (b : bytes)
| DStr (s : str).

Section Handler.

Variable CP : commands_proto.

Definition get_version : M str :=
  interface_write (COMMON CP);;
  interface_write (GET_VERSION CP);;
  line <- interface_readline;;
  match utf8_decode line with
  | Some s => ret s
  | None => raise UnicodeDecodeError
  end.

(** [any(expected in version for expected in ["PSLab", "CSpark"])]. *)
Definition any_expected (version : str) : bool :=
  existsb (fun expected => str_in expected version)
          [str_of_string "PSLab"; str_of_string "CSpark"].

(** The [for port_info in port_info_generator: ... else: version = ""] loop
    of [connect]. *)
Fixpoint autodetect (ports : list string) : M str :=
  match ports with
  | [] => ret []
  | device :: ports' =>
    interface_set_port device;;
    interface_open;;
    version <- get_version;;
    if any_expected version then ret version else autodetect ports'
  end.

Definition connect (p : option string) (baud : Z) (t : Q) : M unit :=
  s <- serial_Serial p baud (Some t) (Some t);;
  modify (set_interface s);;
  opened <- gets (fun h => is_open (interface h));;
  version <- (if opened : bool then get_version
              else fun st => autodetect (comports (snd st)) st);;
  if any_expected version then
    modify (set_version version);;
    i <- gets interface;;
    logger (info_connected version (port i))
  else
    interface_close;;
    modify (set_version []);;
    raise (SerialException "Device not found.").

Definition disconnect : M unit := interface_close.

Definition reconnect (p : option string) (baud : option Z) (t : option Q) : M unit :=
  disconnect;;
  i <- gets interface;;
  let baud := match baud with None => baudrate i | Some b => b end in
  let p := match p with None => port i | Some name => Some name end in
  let t := match t with None => timeout i | Some x => Some x end in
  s <- serial_Serial p baud t t;;
  modify (set_interface s);;
  connect None 1000000 1%Q.

Definition get_ack : M Z :=
  burst <- gets load_burst;;
  if negb burst then
    response <- interface_read 1;;
    try_except (lift (unpack Byte response))
               (fun e => logger (error_exception e);; ret 3)
  else
    modify (fun h => set_input_queue_size (input_queue_size h + 1) h);;
    ret 1.

Definition _get_integer_type (size : Z) : Res Struct :=
  if size =? 1 then Ok Byte
  else if size =? 2 then Ok ShortInt
  else if size =? 4 then Ok Integer
  else Raise (ValueError "size must be 1, 2, or 4.").

(** [2 ** ((value > 0xFF) + (value > 0xFFFF))]. *)
Definition auto_size (z : Z) : Z := 2 ^ (Z.b2z (z >? 255) + Z.b2z (z >? 65535)).

(** The packet that [_send] builds, before it touches the handler. *)
Definition packet_of (v : value) (size : option Z) : Res bytes :=
  match v with
  | VBytes b => Ok b
  | VInt z =>
    let size :=
      match size with
      | None => auto_size z
      | Some s => s
      end in
    match _get_integer_type size with
    | Ok packer => pack packer z
    | Raise e => Raise e
    end
  end.

(** Where [_send] puts the packet: the burst buffer or the serial line. *)
Definition transmit (packet : bytes) : M unit :=
  burst <- gets load_burst;;
  if burst : bool then modify (fun h => set_burst_buffer (burst_buffer h ++ packet) h)
  else interface_write packet.

Definition _send (v : value) (size : option Z) : M unit :=
  packet <- lift (packet_of v size);;
  transmit packet.

Definition send_byte (v : value) : M unit := _send v (Some 1).
Definition send_int (v : value) : M unit := _send v (Some 2).

(** [self.send]: the flash methods call it, and [Handler] binds no attribute
    of that name.  The class has [_send], and [__init__] assigns [send_byte],
    [send_int] and the old aliases; there is no base class and no
    [__getattr__].  Looking the attribute up raises before any argument is
    evaluated, whatever the arguments are. *)
Definition send (v : value) (size : option Z) : M unit :=
  raise (AttributeError "'Handler' object has no attribute 'send'").

Definition _receive (size : Z) : M Z :=
  received <- interface_read size;;
  if len received =? size then
    if (size =? 1) || (size =? 2) || (size =? 4) then
      unpacker <- lift (_get_integer_type size);;
      lift (unpack unpacker received)
    else ret (le_value received)
  else
    logger (error_requested size (len received));;
    ret (-1).

Definition get_byte : M Z := _receive 1.
Definition get_int : M Z := _receive 2.
Definition get_long : M Z := _receive 4.

Definition send_burst : M (list Z) :=
  buffer <- gets burst_buffer;;
  interface_write buffer;;
  modify (set_burst_buffer []);;
  modify (set_load_burst false);;
  n <- gets input_queue_size;;
  acks <- interface_read n;;
  modify (set_input_queue_size 0);;
  ret (map byte_val acks).

Definition read_bulk_flash (page numbytes : Z) : M bytes :=
  send (VBytes (FLASH CP)) None;;
  send (VBytes (READ_BULK_FLASH CP)) None;;
  let bytes_to_read := numbytes + numbytes mod 2 in
  send (VInt bytes_to_read) (Some 2);;
  send (VInt page) None;;
  ss <- interface_read bytes_to_read;;
  get_ack;;
  logger (info_read bytes_to_read page ss);;
  ret (slice_to numbytes ss).

Definition write_bulk_flash (page : Z) (data : flash_data) : M unit :=
  data <- match data with
          | DBytes b => ret b
          | DStr s =>
            match utf8_encode s with
            | Some b => ret b
            | None => raise UnicodeEncodeError
            end
          end;;
  let data := data ++ zeros (len data mod 2) in
  logger (info_writing (len data) page data);;
  send (VBytes (FLASH CP)) None;;
  send (VBytes (WRITE_BULK_FLASH CP)) None;;
  send (VInt (len data)) (Some 2);;
  send (VInt page) None;;
  interface_write data;;
  get_ack;;
  readback <- read_bulk_flash page (len data);;
  if negb (bytes_eqb readback data)
  then raise (RuntimeError "Verification by readback failed")
  else ret tt.

(** [Handler(port, baudrate, timeout)]: the object before [connect] runs, then
    [connect]. *)
Definition fresh : Handler :=
  mkHandler [] false 0 [] (mkSerial None 9600 None None false).

Definition __init__ (p : option string) (baud : Z) (t : Q) : M unit :=
  modify (fun _ => fresh);;
  connect p baud t.

End Handler.

(** ** Callers *)

(** What a caller does with the burst machinery: the three methods, and the
    assignment [H.load_burst = b]. *)
Inductive op :=
| OpSend (v : value) (size : option Z)
| OpGetAck
| OpSendBurst
| OpSetBurst (b : bool).

(** One call, with the response codes it hands back. *)
Definition run (o : op) : M (list Z) :=
  match o with
  | OpSend v size => _send v size;; ret []
  | OpGetAck => code <- get_ack;; ret [code]
  | OpSendBurst => send_burst
  | OpSetBurst b => modify (set_load_burst b);; ret []
  end.

(** A sequence of calls, up to the first exception. *)
Fixpoint run_all (ops : list op) : M (list Z) :=
  match ops with
  | [] => ret []
  | o :: ops' =>
    codes <- run o;;
    codes' <- run_all ops';;
    ret (codes ++ codes')
  end.

(** The state after a sequence of calls whose exceptions the caller catches:
    a failed call leaves the handler as it was when the exception left it. *)
Fixpoint after (ops : list op) (st : State) : State :=
  match ops with
  | [] => st
  | o :: ops' => after ops' (snd (run o st))
  end.

(** The burst invariant of section 3. *)
Definition burst_invariant (h : Handler) : Prop :=
  load_burst h = false -> burst_buffer h = [] /\ input_queue_size h = 0.

(** The calls that burst mode defers, with a value that can be packed. *)
Definition deferrable (o : op) : Prop :=
  match o with
  | OpSend v size => exists packet, packet_of v size = Ok packet
  | OpGetAck => True
  | _ => False
  end.

Fixpoint payload (ops : list op) : bytes :=
  match ops with
  | [] => []
  | OpSend v size :: ops' =>
    match packet_of v size with
    | Ok packet => packet ++ payload ops'
    | Raise _ => payload ops'
    end
  | _ :: ops' => payload ops'
  end.

Fixpoint deferred (ops : list op) : Z :=
  match ops with
  | [] => 0
  | OpGetAck :: ops' => 1 + deferred ops'
  | _ :: ops' => deferred ops'
  end.

(** ** A bench setup for concrete runs *)

Definition bench_CP : commands_proto := mkCP [x0b] [x05] [x01] [x04] [x03].

Definition ttyACM0 : string := "/dev/ttyACM0".
Definition ttyUSB0 : string := "/dev/ttyUSB0".

(** "PSLab V6" and a newline. *)
Definition pslab_reply : bytes := [x50; x53; x4c; x61; x62; x20; x56; x36; x0a].

(** A handler connected to [ttyACM0]. *)
Definition bench_handler : Handler :=
  mkHandler [] false 0 (str_of_string "PSLab V6")
            (mkSerial (Some ttyACM0) 1000000 (Some 1%Q) (Some 1%Q) true).

(** A machine with the device on [ttyACM0], and a peer that plays [script]. *)
Definition bench_world (script : list bytes) : World :=
  mkWorld [ttyACM0; ttyUSB0] [ttyACM0] script [] [].

(** ** The remaining methods of Handler *)

(** [__del__]: the port is closed before the object goes. *)
Definition __del__ : M unit := interface_close.

(** What a method that holds a call able to raise [TypeError] comes to; only
    [write_flash] holds one, after its [self.send] calls. *)
Inductive outcome (A : Type) :=
| Finished (r : Res A)
| TypeError (msg : string).
Arguments Finished {A} r.
Arguments TypeError {A} msg.

(** [self.interface.write(text)] with a [str]: pyserial checks that the port
    is open and then refuses a text string. *)
Definition interface_write_str (text : str) : State -> outcome unit * State :=
  fun st =>
    if is_open (interface (fst st))
    then (TypeError "unicode strings are not supported, please encode to bytes", st)
    else (Finished (Raise PortNotOpenError), st).

Section Slots.

Variable CP : commands_proto.

(** [CP.READ_FLASH] and [CP.WRITE_FLASH], two more opaque tokens of the
    catalog. *)
Variable READ_FLASH : bytes.
Variable WRITE_FLASH : bytes.

(** [self.wait_for_data()]: it polls the clock and the input buffer, and is
    left as any computation. *)
Variable wait_for_data : M Z.

Definition read_flash (page location : Z) : M bytes :=
  send (VBytes (FLASH CP)) None;;
  send (VBytes READ_FLASH) None;;
  send (VInt page) None;;
  send (VInt location) None;;
  ss <- interface_read 16;;
  get_ack;;
  ret ss.

Definition write_flash (page location : Z) (string_to_write : str)
  : State -> outcome unit * State :=
  fun st =>
    let string_to_write :=
      string_to_write ++ repeat 46 (Z.to_nat (16 - len string_to_write)) in
    match (send (VBytes (FLASH CP)) None;;
           send (VBytes WRITE_FLASH) None;;
           send (VInt page) None;;
           send (VInt location) None) st with
    | (Raise e, st1) => (Finished (Raise e), st1)
    | (Ok _, st1) =>
      match interface_write_str string_to_write st1 with
      | (Finished (Ok _), st2) =>
        let (r, st3) := (wait_for_data;; get_ack;; ret tt) st2 in
        (Finished r, st3)
      | failed => failed
      end
    end.

End Slots.

(** ** More about callers *)

(** The packets that the [_send] calls of a sequence build, one by one. *)
Fixpoint packets (ops : list op) : list bytes :=
  match ops with
  | [] => []
  | OpSend v size :: ops' =>
    match packet_of v size with
    | Ok packet => packet :: packets ops'
    | Raise _ => packets ops'
    end
  | _ :: ops' => packets ops'
  end.

(** A [_send] of a value that can be packed. *)
Definition sendable (o : op) : Prop :=
  match o with
  | OpSend v size => exists packet, packet_of v size = Ok packet
  | _ => False
  end.

(** The burst state of [h'] is that of [h]. *)
Definition same_burst (h h' : Handler) : Prop :=
  burst_buffer h' = burst_buffer h
  /\ load_burst h' = load_burst h
  /\ input_queue_size h' = input_queue_size h.

(** * Properties *)

(** ** Bytes, codecs and reads *)

Lemma byte_val_range (b : byte) : 0 <= byte_val b <= 255.
Proof.
  unfold byte_val. pose proof (Byte.to_N_bounded b). lia.
Qed.

Lemma bytes_eqb_eq (a b : bytes) : bytes_eqb a b = true <-> a = b.
Proof.
  revert b. induction a as [|x a IH]; intros [|y b]; simpl; try (split; congruence).
  rewrite andb_true_iff, IH. split.
  - intros [Hxy ->]. apply Byte.byte_dec_bl in Hxy. now subst.
  - intros [= -> ->]. split; auto. now apply Byte.byte_dec_lb.
Qed.

Lemma le_bytes_length (w : nat) (v : Z) : List.length (le_bytes w v) = w.
Proof. revert v. induction w; intros v; simpl; auto. Qed.

Lemma obtain_length (size : Z) (script : list bytes) :
  0 <= len (fst (obtain size script)) <= Z.max 0 size.
Proof.
  unfold obtain, len. destruct (Z.leb_spec size 0); simpl; [lia|].
  destruct script as [|r rest]; simpl; [lia|].
  rewrite length_firstn. lia.
Qed.

Lemma pack_ok (w : nat) (v : Z) :
  0 <= v < 256 ^ Z.of_nat w -> pack (mkStruct w) v = Ok (le_bytes w v).
Proof.
  intros H. unfold pack. simpl.
  destruct (Z.leb_spec 0 v); [|lia]. destruct (Z.ltb_spec v (256 ^ Z.of_nat w)); [|lia].
  reflexivity.
Qed.

Lemma pack_overflow (w : nat) (v : Z) :
  ~ (0 <= v < 256 ^ Z.of_nat w) -> pack (mkStruct w) v = Raise struct_error.
Proof.
  intros H. unfold pack. simpl.
  destruct (Z.leb_spec 0 v); simpl; [|reflexivity].
  destruct (Z.ltb_spec v (256 ^ Z.of_nat w)); [lia|reflexivity].
Qed.

Lemma byte_val_of (z : Z) : byte_val (byte_of z) = z mod 256.
Proof.
  unfold byte_val, byte_of.
  pose proof (Z.mod_pos_bound z 256 ltac:(lia)) as Hm.
  destruct (Byte.of_N (Z.to_N (z mod 256))) as [b|] eqn:E.
  - apply Byte.to_of_N in E. rewrite E. lia.
  - apply Byte.of_N_None_iff in E. lia.
Qed.

Lemma le_value_bytes (w : nat) (v : Z) :
  0 <= v < 256 ^ Z.of_nat w -> le_value (le_bytes w v) = v.
Proof.
  revert v. induction w as [|w IH]; intros v Hv.
  - simpl in *. lia.
  - cbn [le_bytes le_value]. rewrite byte_val_of, IH.
    + pose proof (Z.div_mod v 256 ltac:(lia)). lia.
    + rewrite Nat2Z.inj_succ, Z.pow_succ_r in Hv by lia.
      split; [apply Z.div_pos; lia|].
      apply Z.div_lt_upper_bound; lia.
Qed.

(** What a codec packs, it unpacks to the same value. *)
Lemma unpack_pack (w : nat) (v : Z) :
  0 <= v < 256 ^ Z.of_nat w ->
  exists packet, pack (mkStruct w) v = Ok packet /\ unpack (mkStruct w) packet = Ok v.
Proof.
  intros Hv. exists (le_bytes w v). split; [now apply pack_ok|].
  unfold unpack. cbn [width]. rewrite le_bytes_length, Nat.eqb_refl.
  now rewrite le_value_bytes.
Qed.

Lemma auto_size_cases (z : Z) :
  (z <= 255 /\ auto_size z = 1) \/
  (255 < z <= 65535 /\ auto_size z = 2) \/
  (65535 < z /\ auto_size z = 4).
Proof.
  unfold auto_size.
  destruct (Z.gtb_spec z 255); destruct (Z.gtb_spec z 65535); simpl; lia.
Qed.

(** ** Short reads *)

(** C6.  A read that obtains fewer bytes than were asked for is swallowed:
    [_receive size] logs the shortfall and returns -1, and [get_ack] outside
    burst mode, whose read asks for one byte, logs and returns FAILED (3).
    Both return normally. *)
Theorem short_read_swallowed :
  forall (size : Z) (st st' : State) (received : bytes),
    interface_read size st = (Ok received, st') ->
    len received < size ->
    _receive size st =
      (Ok (-1), (fst st', record (error_requested size (len received)) (snd st')))
    /\ (size = 1 -> load_burst (fst st) = false ->
        get_ack st = (Ok 3, (fst st', record (error_exception struct_error) (snd st')))).
Proof.
  intros size st st' received Hread Hshort. split.
  - unfold _receive, bind. rewrite Hread.
    destruct (Z.eqb_spec (len received) size) as [E|_]; [lia|].
    reflexivity.
  - intros -> Hoff.
    unfold get_ack, bind, gets. rewrite Hoff. simpl. rewrite Hread.
    destruct received as [|b rest]; [reflexivity|].
    unfold len in Hshort. simpl in Hshort. lia.
Qed.

Lemma short_read_swallowed_witness :
  _receive 1 (bench_handler, bench_world []) =
    (Ok (-1), (bench_handler,
               record (error_requested 1 0) (set_rx [] (emit (EvRead 1) (bench_world [])))))
  /\ get_ack (bench_handler, bench_world []) =
    (Ok 3, (bench_handler,
            record (error_exception struct_error)
                   (set_rx [] (emit (EvRead 1) (bench_world []))))).
Proof.
  destruct (short_read_swallowed 1 (bench_handler, bench_world [])
              (bench_handler, set_rx [] (emit (EvRead 1) (bench_world []))) [])
    as [Hreceive Hack].
  - reflexivity.
  - vm_compute. reflexivity.
  - split; [exact Hreceive | apply Hack; reflexivity].
Defined.

(** ** Running a method step by step *)

Lemma bind_ok {A B} (c : M A) (k : A -> M B) (st st' : State) (a : A) :
  c st = (Ok a, st') -> bind c k st = k a st'.
Proof. intros H. unfold bind. now rewrite H. Qed.

(** Run the first statement of the method in the goal, which returns
    normally as [tac] shows, and go on with the rest. *)
Ltac step tac := erewrite bind_ok by tac.

Lemma interface_write_open (h : Handler) (w : World) (data : bytes) :
  is_open (interface h) = true ->
  interface_write data (h, w) = (Ok tt, (h, emit (EvWrite data) w)).
Proof. intros H. unfold interface_write. simpl. now rewrite H. Qed.

Lemma interface_read_open (h : Handler) (w : World) (size : Z) :
  is_open (interface h) = true ->
  interface_read size (h, w) =
    (Ok (fst (obtain size (rx w))),
     (h, set_rx (snd (obtain size (rx w))) (emit (EvRead size) w))).
Proof. intros H. unfold interface_read. simpl. now rewrite H. Qed.

Lemma transmit_burst (h : Handler) (w : World) (packet : bytes) :
  load_burst h = true ->
  transmit packet (h, w) = (Ok tt, (set_burst_buffer (burst_buffer h ++ packet) h, w)).
Proof. intros H. unfold transmit, bind, gets. simpl. now rewrite H. Qed.

Lemma transmit_direct (h : Handler) (w : World) (packet : bytes) :
  load_burst h = false -> is_open (interface h) = true ->
  transmit packet (h, w) = (Ok tt, (h, emit (EvWrite packet) w)).
Proof.
  intros H Ho. unfold transmit, bind, gets. simpl. rewrite H.
  now apply interface_write_open.
Qed.

(** ** Packing and sending *)

Lemma packet_of_explicit (z size : Z) :
  In size [1; 2; 4] ->
  packet_of (VInt z) (Some size) = pack (mkStruct (Z.to_nat size)) z.
Proof.
  intros [<-|[<-|[<-|[]]]]; reflexivity.
Qed.

Lemma packet_of_auto (z : Z) :
  packet_of (VInt z) None = pack (mkStruct (Z.to_nat (auto_size z))) z.
Proof.
  unfold packet_of.
  destruct (auto_size_cases z) as [[_ ->]|[[_ ->]|[_ ->]]]; reflexivity.
Qed.

Lemma packet_of_length_field (n : Z) :
  0 <= n < 65536 -> packet_of (VInt n) (Some 2) = Ok (le_bytes 2 n).
Proof.
  intros H. rewrite packet_of_explicit by (simpl; auto).
  apply pack_ok. simpl. lia.
Qed.

Lemma packet_of_page (page : Z) :
  0 <= page < 256 ^ 4 ->
  packet_of (VInt page) None = Ok (le_bytes (Z.to_nat (auto_size page)) page).
Proof.
  intros H. rewrite packet_of_auto. apply pack_ok.
  rewrite Z2Nat.id; destruct (auto_size_cases page) as [[? ->]|[[? ->]|[? ->]]]; lia.
Qed.

Lemma send_direct (v : value) (size : option Z) (packet : bytes) (h : Handler) (w : World) :
  packet_of v size = Ok packet ->
  load_burst h = false -> is_open (interface h) = true ->
  _send v size (h, w) = (Ok tt, (h, emit (EvWrite packet) w)).
Proof.
  intros Hp Hoff Ho. unfold _send, bind, lift. rewrite Hp.
  now apply transmit_direct.
Qed.

Lemma send_buffered (v : value) (size : option Z) (packet : bytes) (h : Handler) (w : World) :
  packet_of v size = Ok packet ->
  load_burst h = true ->
  _send v size (h, w) = (Ok tt, (set_burst_buffer (burst_buffer h ++ packet) h, w)).
Proof.
  intros Hp Hon. unfold _send, bind, lift. rewrite Hp.
  now apply transmit_burst.
Qed.

(** C8.  A non-negative integer sent without a size is packed in
    [auto_size z] bytes, which is one of 1, 2 and 4 and is the smallest of
    them that can hold the value: every width of the three that holds [z] is
    at least [auto_size z], and [auto_size z] holds it too; a value above
    0xFF gets at least two bytes and a value above 0xFFFF four.  A value
    below [256 ^ 4] goes out as a packet of exactly that many bytes;
    [send(5)] packs one byte, [send(300)] two and [send(70000)] four. *)
Theorem send_auto_size_smallest :
  forall z : Z,
    0 <= z ->
    In (auto_size z) [1; 2; 4]
    /\ (forall w, In w [1; 2; 4] -> z < 256 ^ w ->
                  auto_size z <= w /\ z < 256 ^ auto_size z)
    /\ (255 < z -> 2 <= auto_size z)
    /\ (65535 < z -> auto_size z = 4)
    /\ (z < 256 ^ 4 ->
        exists packet,
          len packet = auto_size z
          /\ forall st, _send (VInt z) None st = transmit packet st)
    /\ (forall st, _send (VInt 5) None st = transmit [x05] st)
    /\ (forall st, _send (VInt 300) None st = transmit [x2c; x01] st)
    /\ (forall st, _send (VInt 70000) None st = transmit [x70; x11; x01; x00] st).
Proof.
  intros z Hz. split; [|split; [|split; [|split; [|split]]]].
  - destruct (auto_size_cases z) as [[_ ->]|[[_ ->]|[_ ->]]]; simpl; auto.
  - intros w Hw Hfit.
    destruct (auto_size_cases z) as [[H ->]|[[H ->]|[H ->]]];
      destruct Hw as [<-|[<-|[<-|[]]]]; lia.
  - intros Hbig. destruct (auto_size_cases z) as [[H ->]|[[H ->]|[H ->]]]; lia.
  - intros Hbig. destruct (auto_size_cases z) as [[H ->]|[[H ->]|[H ->]]]; lia.
  - intros Hfit.
    exists (le_bytes (Z.to_nat (auto_size z)) z). split.
    + unfold len. rewrite le_bytes_length, Z2Nat.id; [reflexivity|].
      destruct (auto_size_cases z) as [[_ ->]|[[_ ->]|[_ ->]]]; lia.
    + intros st. unfold _send, bind, lift.
      rewrite packet_of_auto, pack_ok; [reflexivity|].
      rewrite Z2Nat.id;
        destruct (auto_size_cases z) as [[H ->]|[[H ->]|[H ->]]]; lia.
  - repeat split; intros st; reflexivity.
Qed.

Lemma send_auto_size_smallest_witness :
  0 <= 300
  /\ auto_size 300 = 2
  /\ (auto_size 300 <= 2 /\ 300 < 256 ^ auto_size 300)
  /\ exists packet, len packet = auto_size 300
                    /\ forall st, _send (VInt 300) None st = transmit packet st.
Proof.
  assert (H0 : 0 <= 300) by lia.
  destruct (send_auto_size_smallest 300 H0) as (_ & Hmin & _ & _ & Hpack & _).
  split; [exact H0|]. split; [reflexivity|]. split.
  - apply (Hmin 2); [simpl; auto | lia].
  - apply Hpack. lia.
Defined.

(** C10.  With an explicit size of 1, 2 or 4 and a value that the size cannot
    hold, [_send] raises the packer's error and leaves the whole state as it
    was: nothing is written to the serial line, nothing is appended to the
    burst buffer, and no truncated packet is produced. *)
Theorem send_explicit_size_overflow :
  forall (z size : Z) (st : State),
    In size [1; 2; 4] ->
    ~ (0 <= z < 256 ^ size) ->
    _send (VInt z) (Some size) st = (Raise struct_error, st).
Proof.
  intros z size st Hsize Hfit.
  unfold _send, bind, lift.
  rewrite (packet_of_explicit z size Hsize), pack_overflow; [reflexivity|].
  simpl. rewrite Z2Nat.id; [exact Hfit|].
  destruct Hsize as [<-|[<-|[<-|[]]]]; lia.
Qed.

Lemma send_explicit_size_overflow_witness :
  In 1 [1; 2; 4]
  /\ ~ (0 <= 300 < 256 ^ 1)
  /\ _send (VInt 300) (Some 1) (bench_handler, bench_world []) =
     (Raise struct_error, (bench_handler, bench_world [])).
Proof.
  assert (Hsize : In 1 [1; 2; 4]) by (simpl; auto).
  assert (Hfit : ~ (0 <= 300 < 256 ^ 1)) by lia.
  split; [exact Hsize|]. split; [exact Hfit|].
  exact (send_explicit_size_overflow 300 1 (bench_handler, bench_world []) Hsize Hfit).
Defined.

(** ** Acknowledgments *)

Lemma get_ack_burst (h : Handler) (w : World) :
  load_burst h = true ->
  get_ack (h, w) = (Ok 1, (set_input_queue_size (input_queue_size h + 1) h, w)).
Proof. intros H. unfold get_ack, bind, gets. simpl. now rewrite H. Qed.

Lemma get_ack_direct (h : Handler) (w : World) :
  load_burst h = false -> is_open (interface h) = true ->
  get_ack (h, w) =
    match fst (obtain 1 (rx w)) with
    | [b] => (Ok (byte_val b), (h, set_rx (snd (obtain 1 (rx w))) (emit (EvRead 1) w)))
    | _ => (Ok 3, (h, record (error_exception struct_error)
                             (set_rx (snd (obtain 1 (rx w))) (emit (EvRead 1) w))))
    end.
Proof.
  intros H Ho. unfold get_ack, bind, gets. simpl. rewrite H. simpl.
  rewrite interface_read_open by assumption.
  pose proof (obtain_length 1 (rx w)) as Hl.
  destruct (fst (obtain 1 (rx w))) as [|b [|b' rest]].
  - reflexivity.
  - unfold try_except, lift, unpack. simpl. f_equal. f_equal. lia.
  - unfold len in Hl. simpl in Hl. lia.
Qed.

Lemma get_ack_direct_effect (h : Handler) (w : World) :
  load_burst h = false -> is_open (interface h) = true ->
  exists code w',
    get_ack (h, w) = (Ok code, (h, w'))
    /\ trace w' = trace w ++ [EvRead 1]
    /\ rx w' = snd (obtain 1 (rx w)).
Proof.
  intros Hoff Ho. rewrite get_ack_direct by assumption.
  destruct (fst (obtain 1 (rx w))) as [|b [|b' rest]];
    eexists _, _; (split; [reflexivity|]); split; reflexivity.
Qed.

(** C5, as the code has it.  On an open line [get_ack] returns normally.  In
    burst mode it returns SUCCESS (1) and counts one more pending
    acknowledgment.  Outside burst mode it returns the value of the byte it
    read, whatever that is between 0 and 255, neither decoded nor checked
    against the three codes; when the read obtains no byte it logs and
    returns FAILED (3). *)
Theorem get_ack_codes :
  forall (h : Handler) (w : World),
    is_open (interface h) = true ->
    exists code st',
      get_ack (h, w) = (Ok code, st')
      /\ (load_burst h = true ->
          code = 1 /\ st' = (set_input_queue_size (input_queue_size h + 1) h, w))
      /\ (load_burst h = false ->
          match fst (obtain 1 (rx w)) with
          | [b] => code = byte_val b /\ 0 <= code <= 255
          | _ => code = 3 /\ log (snd st') = log w ++ [error_exception struct_error]
          end).
Proof.
  intros h w Ho. destruct (load_burst h) eqn:Hb.
  - rewrite get_ack_burst by assumption.
    eexists _, _. split; [reflexivity|]. split; [auto | discriminate].
  - rewrite get_ack_direct by assumption.
    destruct (fst (obtain 1 (rx w))) as [|b [|b' rest]];
      eexists _, _; (split; [reflexivity|]); (split; [discriminate|]); intros _;
      try (split; reflexivity).
    split; [reflexivity | apply byte_val_range].
Qed.

Lemma get_ack_codes_witness :
  is_open (interface bench_handler) = true
  /\ exists code st',
      get_ack (bench_handler, bench_world [[x02]]) = (Ok code, st')
      /\ code = 2.
Proof.
  split; [reflexivity|].
  destruct (get_ack_codes bench_handler (bench_world [[x02]]) eq_refl)
    as (code & st' & Hrun & _ & Hdirect).
  exists code, st'. split; [exact Hrun|].
  destruct (Hdirect eq_refl) as [-> _]. reflexivity.
Defined.

(** C5 as the specification has it fails: outside burst mode a peer that
    answers with the byte 7 makes [get_ack] return 7, which is none of
    SUCCESS, ARGUMENT_ERROR and FAILED. *)
Lemma get_ack_passes_raw_byte :
  load_burst bench_handler = false
  /\ fst (get_ack (bench_handler, bench_world [[x07]])) = Ok 7
  /\ ~ In 7 [1; 2; 3].
Proof.
  split; [reflexivity|]. split; [reflexivity|].
  simpl. intros [H|[H|[H|[]]]]; discriminate.
Qed.

(** ** Burst mode *)

Lemma send_burst_open (h : Handler) (w : World) :
  is_open (interface h) = true ->
  let n := input_queue_size h in
  send_burst (h, w) =
    (Ok (map byte_val (fst (obtain n (rx w)))),
     (mkHandler [] false 0 (version h) (interface h),
      set_rx (snd (obtain n (rx w))) (emit (EvRead n) (emit (EvWrite (burst_buffer h)) w)))).
Proof.
  intros Ho n. unfold send_burst, bind, gets. simpl.
  rewrite interface_write_open by assumption. simpl.
  unfold interface_read. simpl. rewrite Ho. reflexivity.
Qed.

Lemma deferred_nonneg (ops : list op) : 0 <= deferred ops.
Proof. induction ops as [|[] ops IH]; cbn [deferred]; lia. Qed.

Lemma run_all_app (a b : list op) (st : State) :
  run_all (a ++ b) st =
    match run_all a st with
    | (Ok ca, st') =>
      match run_all b st' with
      | (Ok cb, st'') => (Ok (ca ++ cb), st'')
      | (Raise e, st'') => (Raise e, st'')
      end
    | (Raise e, st') => (Raise e, st')
    end.
Proof.
  revert st. induction a as [|o a IH]; intros st; simpl.
  - unfold ret. destruct (run_all b st) as [[cb|e] st'']; reflexivity.
  - unfold bind. destruct (run o st) as [[c|e] st1]; [|reflexivity].
    rewrite IH. destruct (run_all a st1) as [[ca|e] st2]; [|reflexivity].
    unfold ret. simpl.
    destruct (run_all b st2) as [[cb|e] st3]; [|reflexivity].
    now rewrite app_assoc.
Qed.

Lemma run_all_deferred (ops : list op) :
  forall (h : Handler) (w : World),
    Forall deferrable ops -> load_burst h = true ->
    run_all ops (h, w) =
      (Ok (repeat 1 (Z.to_nat (deferred ops))),
       (mkHandler (burst_buffer h ++ payload ops) true
                  (input_queue_size h + deferred ops) (version h) (interface h), w)).
Proof.
  induction ops as [|o ops IH]; intros h w Hall Hon.
  - simpl. unfold ret. rewrite app_nil_r, Z.add_0_r. destruct h; simpl in *. now subst.
  - inversion Hall as [|? ? Ho Hops]; subst.
    destruct o as [v size| | |b]; simpl in Ho; try contradiction.
    + destruct Ho as [packet Hp].
      cbn [run_all run payload deferred]. rewrite Hp. unfold bind at 1. unfold bind at 1.
      unfold _send, bind at 1, lift. rewrite Hp.
      rewrite transmit_burst by assumption. unfold ret at 1.
      unfold bind. rewrite IH by assumption. unfold ret.
      cbn [set_burst_buffer burst_buffer input_queue_size version interface app].
      now rewrite app_assoc.
    + cbn [run_all run payload deferred]. unfold bind at 1. unfold bind at 1.
      rewrite get_ack_burst by assumption. unfold ret at 1.
      unfold bind. rewrite IH by assumption. unfold ret.
      pose proof (deferred_nonneg ops).
      replace (Z.to_nat (1 + deferred ops)) with (S (Z.to_nat (deferred ops))) by lia.
      cbn [set_input_queue_size burst_buffer input_queue_size version interface repeat app].
      now rewrite Z.add_assoc.
Qed.

(** C7, as the code has it.  In burst mode a sequence of [_send] and
    [get_ack] calls touches the serial line not at all: each [_send] appends
    its packet to the buffer, each [get_ack] returns SUCCESS and counts one.
    [send_burst] then writes the whole buffer in one write, empties it,
    leaves burst mode, reads once, asking for as many bytes as were counted,
    zeroes the counter and returns the values of the bytes it obtained, in
    order and undecoded.  That list is at most as long as the count, and as
    long when the peer delivers that many bytes before the timeout. *)
Theorem burst_defers_then_flushes :
  forall (ops : list op) (h : Handler) (w : World),
    Forall deferrable ops ->
    load_burst h = true ->
    is_open (interface h) = true ->
    0 <= input_queue_size h ->
    let n := input_queue_size h + deferred ops in
    let acks := fst (obtain n (rx w)) in
    run_all (ops ++ [OpSendBurst]) (h, w) =
      (Ok (repeat 1 (Z.to_nat (deferred ops)) ++ map byte_val acks),
       (mkHandler [] false 0 (version h) (interface h),
        set_rx (snd (obtain n (rx w)))
               (emit (EvRead n) (emit (EvWrite (burst_buffer h ++ payload ops)) w))))
    /\ len (map byte_val acks) <= n
    /\ (n <= len (hd [] (rx w)) -> len (map byte_val acks) = n).
Proof.
  intros ops h w Hall Hon Ho Hn n acks. split; [|split].
  - rewrite run_all_app, run_all_deferred by assumption.
    cbn [run_all run]. unfold bind at 1.
    rewrite send_burst_open by assumption.
    unfold bind, ret. cbn [burst_buffer input_queue_size version interface].
    now rewrite app_nil_r.
  - pose proof (deferred_nonneg ops). pose proof (obtain_length n (rx w)).
    unfold len in *. rewrite length_map. fold acks in H0. lia.
  - intros Hfull. pose proof (deferred_nonneg ops).
    unfold len in *. rewrite length_map. subst acks. unfold obtain.
    destruct (Z.leb_spec n 0); simpl; [lia|].
    destruct (rx w) as [|r rest]; simpl in *; [lia|].
    rewrite length_firstn. lia.
Qed.

Lemma burst_defers_then_flushes_witness :
  let ops := [OpSend (VInt 5) None; OpGetAck; OpSend (VInt 300) None; OpGetAck;
              OpSend (VInt 70000) None; OpGetAck] in
  let h := set_load_burst true bench_handler in
  let w := bench_world [[x01; x01; x01]] in
  Forall deferrable ops
  /\ load_burst h = true
  /\ is_open (interface h) = true
  /\ 0 <= input_queue_size h
  /\ run_all (ops ++ [OpSendBurst]) (h, w) =
     (Ok [1; 1; 1; 1; 1; 1],
      (bench_handler,
       set_rx [] (emit (EvRead 3)
                       (emit (EvWrite [x05; x2c; x01; x70; x11; x01; x00]) w)))).
Proof.
  intros ops h w.
  assert (Hall : Forall deferrable ops).
  { repeat constructor; eexists; reflexivity. }
  assert (Hn : 0 <= input_queue_size h) by (simpl; lia).
  split; [exact Hall|]. split; [reflexivity|]. split; [reflexivity|]. split; [exact Hn|].
  exact (proj1 (burst_defers_then_flushes ops h w Hall eq_refl eq_refl Hn)).
Defined.

(** C7 as the specification has it fails in its last clause: three
    acknowledgments are deferred and the peer delivers two bytes before the
    timeout, so [send_burst] asks for three bytes and returns a list of
    two. *)
Lemma send_burst_short_of_deferred :
  let st := after [OpSetBurst true; OpSend (VInt 5) None; OpGetAck;
                   OpSend (VInt 300) None; OpGetAck; OpSend (VInt 70000) None; OpGetAck]
                  (bench_handler, bench_world [[x01; x01]]) in
  input_queue_size (fst st) = 3
  /\ fst (send_burst st) = Ok [1; 1]
  /\ trace (snd (snd (send_burst st))) =
     [EvWrite [x05; x2c; x01; x70; x11; x01; x00]; EvRead 3].
Proof. repeat split. Qed.

Lemma run_keeps_invariant (o : op) (st : State) :
  o <> OpSetBurst false ->
  burst_invariant (fst st) ->
  burst_invariant (fst (snd (run o st))).
Proof.
  intros Hext Hinv. destruct st as [h w].
  destruct o as [v size| | |[|]]; [| | | |congruence].
  - cbn [run]. unfold _send, bind, lift.
    destruct (packet_of v size) as [packet|e]; [|exact Hinv].
    unfold transmit, bind, gets, modify, ret. cbn [fst snd].
    destruct (load_burst h) eqn:Hb.
    + cbn [fst snd]. intros Hoff. unfold set_burst_buffer in Hoff. cbn in Hoff. congruence.
    + unfold interface_write. cbn [fst snd]. destruct (is_open (interface h)); exact Hinv.
  - cbn [run]. unfold get_ack, bind, gets, modify, ret. cbn [fst snd].
    destruct (load_burst h) eqn:Hb; cbn [negb].
    + cbn [fst snd]. intros Hoff. unfold set_input_queue_size in Hoff. cbn in Hoff. congruence.
    + unfold interface_read. cbn [fst snd]. destruct (is_open (interface h)); [|exact Hinv].
      unfold try_except, lift, logger, bind, ret.
      destruct (unpack Byte _); exact Hinv.
  - cbn [run]. unfold send_burst, bind, gets, modify, ret. cbn [fst snd].
    unfold interface_write. cbn [fst snd].
    destruct (is_open (interface h)) eqn:Ho; [|exact Hinv].
    unfold interface_read. cbn. rewrite Ho. cbn. intros _. auto.
  - cbn. intros Hoff. discriminate.
Qed.

Lemma run_effect_on_burst_state (o : op) (st : State) :
  match o with
  | OpSendBurst =>
    (exists codes, fst (run o st) = Ok codes) ->
    burst_buffer (fst (snd (run o st))) = []
    /\ input_queue_size (fst (snd (run o st))) = 0
    /\ load_burst (fst (snd (run o st))) = false
  | _ =>
    (exists suffix, burst_buffer (fst (snd (run o st))) = burst_buffer (fst st) ++ suffix)
    /\ input_queue_size (fst st) <= input_queue_size (fst (snd (run o st)))
  end.
Proof.
  destruct st as [h w]. destruct o as [v size| | |b].
  - cbn [run]. unfold _send, bind, lift.
    destruct (packet_of v size) as [packet|e].
    + unfold transmit, bind, gets, modify, ret, interface_write. cbn [fst snd].
      destruct (load_burst h); cbn [fst snd].
      * split; [now exists packet | cbn; lia].
      * destruct (is_open (interface h)); cbn [fst snd];
          (split; [exists []; now rewrite app_nil_r | lia]).
    + cbn [fst snd]. split; [exists []; now rewrite app_nil_r | lia].
  - cbn [run]. unfold get_ack, bind, gets, modify, ret. cbn [fst snd].
    destruct (load_burst h); cbn [negb fst snd].
    + split; [exists []; cbn; now rewrite app_nil_r | cbn; lia].
    + unfold interface_read. cbn [fst snd]. destruct (is_open (interface h)).
      * unfold try_except, lift, logger, bind, ret.
        destruct (unpack Byte _); cbn [fst snd];
          (split; [exists []; now rewrite app_nil_r | lia]).
      * cbn [fst snd]. split; [exists []; now rewrite app_nil_r | lia].
  - intros [codes Hok]. revert Hok.
    cbn [run]. unfold send_burst, bind, gets, modify, ret, interface_write. cbn [fst snd].
    destruct (is_open (interface h)) eqn:Ho; [|discriminate].
    unfold interface_read. cbn. rewrite Ho. cbn. auto.
  - cbn. split; [exists []; now rewrite app_nil_r | lia].
Qed.

(** C2, as the code has it.  Along every sequence of [_send], [get_ack] and
    [send_burst] calls in which the caller turns burst mode on but never off
    by hand, whatever the calls raise, the buffer is empty and the counter
    zero whenever burst mode is off.  A [send_burst] that returns has emptied
    the buffer, zeroed the counter and left burst mode; every other call,
    the assignment to [load_burst] included, only extends the buffer and
    never lowers the counter, so nothing else resets them. *)
Theorem burst_invariant_without_external_off :
  forall (ops : list op) (st : State),
    burst_invariant (fst st) ->
    ~ In (OpSetBurst false) ops ->
    burst_invariant (fst (after ops st))
    /\ forall (o : op) (st1 : State),
        match o with
        | OpSendBurst =>
          (exists codes, fst (run o st1) = Ok codes) ->
          burst_buffer (fst (snd (run o st1))) = []
          /\ input_queue_size (fst (snd (run o st1))) = 0
          /\ load_burst (fst (snd (run o st1))) = false
        | _ =>
          (exists suffix,
              burst_buffer (fst (snd (run o st1))) = burst_buffer (fst st1) ++ suffix)
          /\ input_queue_size (fst st1) <= input_queue_size (fst (snd (run o st1)))
        end.
Proof.
  intros ops st Hinv Hext. split; [|exact run_effect_on_burst_state].
  revert st Hinv. induction ops as [|o ops IH]; intros st Hinv; [exact Hinv|].
  cbn [after]. apply IH.
  - intros Hin. apply Hext. now right.
  - apply run_keeps_invariant; [|exact Hinv].
    intros ->. apply Hext. now left.
Qed.

Lemma burst_invariant_without_external_off_witness :
  let ops := [OpSetBurst true; OpSend (VInt 5) None; OpGetAck; OpSendBurst; OpGetAck] in
  let st := (bench_handler, bench_world [[x01]; [x01]]) in
  burst_invariant (fst st)
  /\ ~ In (OpSetBurst false) ops
  /\ burst_invariant (fst (after ops st)).
Proof.
  intros ops st.
  assert (Hinv : burst_invariant (fst st)) by (intros _; split; reflexivity).
  assert (Hext : ~ In (OpSetBurst false) ops).
  { simpl. intros [H|[H|[H|[H|[H|[]]]]]]; discriminate. }
  split; [exact Hinv|]. split; [exact Hext|].
  exact (proj1 (burst_invariant_without_external_off ops st Hinv Hext)).
Defined.

(** C2 as the specification has it fails: the caller turns burst mode on,
    sends one byte, asks for one acknowledgment and turns burst mode off by
    hand.  Burst mode is then off with one byte in the buffer and one
    acknowledgment pending; the assignment reset neither. *)
Lemma external_off_breaks_invariant :
  let st := after [OpSetBurst true; OpSend (VInt 5) None; OpGetAck; OpSetBurst false]
                  (bench_handler, bench_world []) in
  load_burst (fst st) = false
  /\ burst_buffer (fst st) = [x05]
  /\ input_queue_size (fst st) = 1
  /\ ~ burst_invariant (fst st).
Proof.
  repeat split. intros H. destruct (H eq_refl) as [Hb _]. discriminate.
Qed.

(** ** Flash pages *)

(** C9 fails on the code.  [read_bulk_flash] starts with [self.send(CP.FLASH)],
    and [Handler] binds no [send]: for every command catalog, page and byte
    count, in every state of the handler and the line, the call raises
    [AttributeError] there and leaves the state as it found it.  No length is
    rounded or sent, nothing is read and no bytes are returned.
    [read_bulk_flash(3, 5)] on a connected handler, with a peer ready to
    return six bytes and an acknowledgment, is one such call: the line sees
    no write and no read, and the six bytes stay with the peer. *)
Theorem read_bulk_flash_raises_attribute_error :
  (forall (CP : commands_proto) (page numbytes : Z) (st : State),
      read_bulk_flash CP page numbytes st =
        (Raise (AttributeError "'Handler' object has no attribute 'send'"), st))
  /\ let script := [[x0a; x0b; x0c; x0d; x0e; x0f]; [x01]] in
     let run := read_bulk_flash bench_CP 3 5 (bench_handler, bench_world script) in
     fst run = Raise (AttributeError "'Handler' object has no attribute 'send'")
     /\ trace (snd (snd run)) = []
     /\ rx (snd (snd run)) = script.
Proof. split; [reflexivity|]. repeat split. Qed.

(** C1 fails on the code.  [write_bulk_flash] pads the data to even length,
    logs the write it is about to make and then calls [self.send(CP.FLASH)],
    and [Handler] binds no [send]: for every command catalog, page and data
    byte-string, in every state of the handler and the line, the call raises
    [AttributeError] there.  The log entry is its only effect: no command and
    no data are written, no acknowledgment is read, [read_bulk_flash] is not
    called and nothing is compared, so the verification error is never
    raised and the call never returns normally.  [write_bulk_flash(3, b"a")]
    on a connected handler is one such call, whether the peer is ready to
    return the data as written or not. *)
Theorem write_bulk_flash_raises_attribute_error :
  (forall (CP : commands_proto) (page : Z) (data : bytes) (h : Handler) (w : World),
      write_bulk_flash CP page (DBytes data) (h, w) =
        (Raise (AttributeError "'Handler' object has no attribute 'send'"),
         (h, record (info_writing (len (data ++ zeros (len data mod 2))) page
                                  (data ++ zeros (len data mod 2))) w)))
  /\ let script := [[x01]; [x61; x00]; [x01]] in
     let run := write_bulk_flash bench_CP 3 (DBytes [x61]) (bench_handler, bench_world script) in
     fst run = Raise (AttributeError "'Handler' object has no attribute 'send'")
     /\ fst run <> Ok tt
     /\ fst run <> Raise (RuntimeError "Verification by readback failed")
     /\ trace (snd (snd run)) = []
     /\ rx (snd (snd run)) = script
     /\ log (snd (snd run)) = [info_writing 2 3 [x61; x00]].
Proof.
  split; [reflexivity|]. cbv zeta.
  repeat split; try discriminate.
Qed.

(** ** Connecting *)

Lemma any_expected_nonempty (v : str) : any_expected v = true -> v <> [].
Proof. intros H ->. discriminate. Qed.

Section Connection.

Variable CP : commands_proto.

Lemma interface_close_version (st : State) :
  fst (interface_close st) = Ok tt
  /\ version (fst (snd (interface_close st))) = version (fst st).
Proof.
  unfold interface_close. destruct (is_open (interface (fst st))); split; reflexivity.
Qed.

Lemma interface_open_version (st : State) :
  version (fst (snd (interface_open st))) = version (fst st)
  /\ raised (fst (interface_open st)) <> Some (SerialException "Device not found.").
Proof.
  unfold interface_open.
  destruct (port (interface (fst st))); [|split; [reflexivity|discriminate]].
  destruct (is_open (interface (fst st))); [split; [reflexivity|discriminate]|].
  destruct (can_open s (snd st)); split; try reflexivity; discriminate.
Qed.

Lemma interface_set_port_version (name : string) (st : State) :
  version (fst (snd (interface_set_port name st))) = version (fst st)
  /\ raised (fst (interface_set_port name st)) <> Some (SerialException "Device not found.").
Proof.
  unfold interface_set_port, bind, gets, modify, ret. cbn [fst snd].
  destruct (is_open (interface (fst st))) eqn:Ho.
  - unfold interface_close. rewrite Ho.
    match goal with |- context [interface_open ?s] =>
      destruct (interface_open_version s) as [Hv Hr]; revert Hv Hr
    end.
    cbn [fst snd]. auto.
  - split; [reflexivity|discriminate].
Qed.

Lemma get_version_handler (st : State) :
  fst (snd (get_version CP st)) = fst st
  /\ raised (fst (get_version CP st)) <> Some (SerialException "Device not found.").
Proof.
  unfold get_version, bind, interface_write, interface_readline, ret, raise.
  destruct st as [h w]. cbn [fst snd].
  destruct (is_open (interface h)) eqn:Ho; [|split; [reflexivity|discriminate]].
  cbn [fst snd]. rewrite Ho. cbn [fst snd]. rewrite Ho. cbn [fst snd rx emit].
  destruct (rx w) as [|r rest]; cbn [fst snd].
  - split; [reflexivity|discriminate].
  - destruct (utf8_decode (line_of r)); split; try reflexivity; discriminate.
Qed.

Lemma autodetect_version (ports : list string) :
  forall st : State,
    version (fst (snd (autodetect CP ports st))) = version (fst st)
    /\ raised (fst (autodetect CP ports st)) <> Some (SerialException "Device not found.").
Proof.
  induction ports as [|device ports IH]; intros st.
  - split; [reflexivity|discriminate].
  - cbn [autodetect]. unfold bind.
    destruct (interface_set_port_version device st) as [Hv1 Hr1].
    destruct (interface_set_port device st) as [[[]|e1] st1]; cbn [fst snd] in *;
      [|split; [exact Hv1|exact Hr1]].
    destruct (interface_open_version st1) as [Hv2 Hr2].
    destruct (interface_open st1) as [[[]|e2] st2]; cbn [fst snd] in *;
      [|split; [congruence|exact Hr2]].
    destruct (get_version_handler st2) as [Hv3 Hr3].
    destruct (get_version CP st2) as [[v|e3] st3]; cbn [fst snd] in *;
      [|split; [congruence|exact Hr3]].
    destruct (any_expected v).
    + unfold ret. cbn [fst snd]. split; [congruence|discriminate].
    + destruct (IH st3) as [Hv4 Hr4]. split; [congruence|exact Hr4].
Qed.

Lemma connect_outcome (p : option string) (baud : Z) (t : Q) (st : State) :
  match connect CP p baud t st with
  | (Ok _, st') => any_expected (version (fst st')) = true
  | (Raise e, st') => e = SerialException "Device not found." -> version (fst st') = []
  end.
Proof.
  unfold connect, bind.
  destruct (serial_Serial p baud (Some t) (Some t) st) as [[s|e] st1] eqn:Hs.
  2:{ unfold serial_Serial in Hs. destruct p as [name|]; [|discriminate].
      destruct (can_open name (snd st)); [discriminate|]. injection Hs as <- <-.
      discriminate. }
  unfold modify at 1, gets at 1. cbn [fst snd].
  match goal with
  | |- context [(if ?o then ?a else ?b) ?s0] =>
    assert (Hphase : raised (fst ((if o then a else b) s0))
                     <> Some (SerialException "Device not found."));
    [destruct o; [apply get_version_handler | apply autodetect_version]|];
    destruct ((if o then a else b) s0) as [[v|e] st2]
  end.
  2:{ cbn [fst snd raised] in *. intros ->. contradiction. }
  destruct (any_expected v) eqn:Hv.
  - unfold modify, gets, logger. cbn [fst snd set_version version]. exact Hv.
  - destruct (interface_close_version st2) as [Hok _].
    destruct (interface_close st2) as [[[]|e] st3]; [|discriminate].
    unfold modify, raise. cbn [fst snd set_version version]. reflexivity.
Qed.

(** C3, as the code has it.  A [connect] that returns leaves a version
    string that contains "PSLab" or "CSpark", so a non-empty one.  A
    [connect] that fails with "Device not found." leaves the version string
    empty.  [disconnect] leaves the version string as it was. *)
Theorem version_follows_connect :
  forall (p : option string) (baud : Z) (t : Q) (st : State),
    (fst (connect CP p baud t st) = Ok tt ->
     any_expected (version (fst (snd (connect CP p baud t st)))) = true
     /\ version (fst (snd (connect CP p baud t st))) <> [])
    /\ (fst (connect CP p baud t st) = Raise (SerialException "Device not found.") ->
        version (fst (snd (connect CP p baud t st))) = [])
    /\ version (fst (snd (disconnect st))) = version (fst st).
Proof.
  intros p baud t st.
  pose proof (connect_outcome p baud t st) as H.
  destruct (connect CP p baud t st) as [[[]|e] st']; cbn [fst snd].
  - split; [|split].
    + intros _. split; [exact H|now apply any_expected_nonempty].
    + discriminate.
    + apply interface_close_version.
  - split; [|split].
    + discriminate.
    + intros [= ->]. now apply H.
    + apply interface_close_version.
Qed.

(** *** The settings a connection ends with *)

Lemma interface_open_rate (st : State) :
  baudrate (interface (fst (snd (interface_open st)))) = baudrate (interface (fst st))
  /\ timeout (interface (fst (snd (interface_open st)))) = timeout (interface (fst st)).
Proof.
  unfold interface_open.
  destruct (port (interface (fst st))) as [name|]; [|split; reflexivity].
  destruct (is_open (interface (fst st))); [split; reflexivity|].
  destruct (can_open name (snd st)); split; reflexivity.
Qed.

Lemma interface_set_port_rate (name : string) (st : State) :
  baudrate (interface (fst (snd (interface_set_port name st)))) = baudrate (interface (fst st))
  /\ timeout (interface (fst (snd (interface_set_port name st)))) = timeout (interface (fst st)).
Proof.
  unfold interface_set_port, bind, gets, modify, ret. cbn [fst snd].
  destruct (is_open (interface (fst st))) eqn:Ho.
  - unfold interface_close. rewrite Ho.
    match goal with |- context [interface_open ?s] =>
      destruct (interface_open_rate s) as [Hb Ht]; revert Hb Ht
    end.
    cbn [fst snd]. auto.
  - split; reflexivity.
Qed.

Lemma autodetect_rate (ports : list string) :
  forall st : State,
    baudrate (interface (fst (snd (autodetect CP ports st)))) = baudrate (interface (fst st))
    /\ timeout (interface (fst (snd (autodetect CP ports st)))) = timeout (interface (fst st)).
Proof.
  induction ports as [|device ports IH]; intros st; [split; reflexivity|].
  cbn [autodetect]. unfold bind.
  destruct (interface_set_port_rate device st) as [Hb1 Ht1].
  destruct (interface_set_port device st) as [[[]|e1] st1]; cbn [fst snd] in *;
    [|split; assumption].
  destruct (interface_open_rate st1) as [Hb2 Ht2].
  destruct (interface_open st1) as [[[]|e2] st2]; cbn [fst snd] in *;
    [|split; congruence].
  destruct (get_version_handler st2) as [Hh _].
  destruct (get_version CP st2) as [[v|e3] st3]; cbn [fst snd] in *;
    [|split; congruence].
  destruct (any_expected v).
  - unfold ret. cbn [fst snd]. split; congruence.
  - destruct (IH st3) as [Hb4 Ht4]. split; congruence.
Qed.

Lemma connect_rate (p : option string) (baud : Z) (t : Q) (st : State) :
  match connect CP p baud t st with
  | (Ok _, st') =>
    baudrate (interface (fst st')) = baud /\ timeout (interface (fst st')) = Some t
  | (Raise _, _) => True
  end.
Proof.
  unfold connect, bind.
  destruct (serial_Serial p baud (Some t) (Some t) st) as [[s|e] st1] eqn:Hs; [|exact I].
  assert (Hrate : baudrate s = baud /\ timeout s = Some t).
  { unfold serial_Serial in Hs. destruct p as [name|].
    - destruct (can_open name (snd st)); [|discriminate]. injection Hs as <- _. auto.
    - injection Hs as <- _. auto. }
  unfold modify at 1, gets at 1. cbn [fst snd].
  match goal with
  | |- context [(if ?o then ?a else ?b) ?s0] =>
    assert (Hphase :
      baudrate (interface (fst (snd ((if o then a else b) s0)))) = baudrate (interface (fst s0))
      /\ timeout (interface (fst (snd ((if o then a else b) s0)))) = timeout (interface (fst s0)));
    [destruct o;
     [destruct (get_version_handler s0) as [-> _]; split; reflexivity
     |apply autodetect_rate]|];
    destruct ((if o then a else b) s0) as [[v|e] st2]; [|exact I]
  end.
  cbn [fst snd set_interface interface] in Hphase.
  destruct (any_expected v).
  - unfold modify, gets, logger. cbn [fst snd set_version interface].
    destruct Hphase as [Hb Ht], Hrate as [Hb' Ht']. split; congruence.
  - destruct (interface_close st2) as [[[]|e] st3]; exact I.
Qed.

(** Whatever the caller passes and whatever the previous connection was, a
    [reconnect] that returns has connected at the default rate and timeout. *)
Lemma reconnect_rate (p : option string) (baud : option Z) (t : option Q) (st : State) :
  match reconnect CP p baud t st with
  | (Ok _, st') =>
    baudrate (interface (fst st')) = 1000000
    /\ timeout (interface (fst st')) = Some 1%Q
  | (Raise _, _) => True
  end.
Proof.
  unfold reconnect, bind.
  destruct (disconnect st) as [[[]|e] st1]; [|exact I].
  unfold gets at 1. cbn [fst snd].
  match goal with
  | |- context [serial_Serial ?a ?b ?c ?d ?s] =>
    destruct (serial_Serial a b c d s) as [[s2|e] st2]; [|exact I]
  end.
  unfold modify at 1. cbn [fst snd].
  apply connect_rate.
Qed.

End Connection.


(** ** Concrete runs on the bench *)

Lemma version_follows_connect_witness :
  let run := connect bench_CP (Some ttyACM0) 1000000 1%Q (fresh, bench_world [pslab_reply]) in
  fst run = Ok tt
  /\ any_expected (version (fst (snd run))) = true
  /\ version (fst (snd run)) <> [].
Proof.
  intros run.
  assert (Hok : fst run = Ok tt) by reflexivity.
  split; [exact Hok|].
  exact (proj1 (version_follows_connect bench_CP (Some ttyACM0) 1000000 1%Q
                  (fresh, bench_world [pslab_reply])) Hok).
Defined.

(** C3 as the specification has it fails on [disconnect]: a handler that
    connected and then disconnects has a closed port and still the version
    string of the handshake. *)
Lemma version_survives_disconnect :
  let connected :=
    __init__ bench_CP (Some ttyACM0) 1000000 1%Q (fresh, bench_world [pslab_reply]) in
  let st := snd (disconnect (snd connected)) in
  fst connected = Ok tt
  /\ is_open (interface (fst st)) = false
  /\ version (fst st) = str_of_string "PSLab V6" ++ [10]
  /\ version (fst st) <> [].
Proof.
  repeat split. discriminate.
Qed.

(** C4 fails on the code.  A handler is connected to [ttyUSB0] at 9600 baud
    with a timeout of 5 seconds.  [reconnect()] with no argument builds a
    [Serial] with those settings and then calls [connect()] with none, which
    replaces it: the handler ends up on the autodetected [ttyACM0] at
    1000000 baud with a timeout of 1 second. *)
Theorem reconnect_drops_previous_settings :
  let connected :=
    __init__ bench_CP (Some ttyUSB0) 9600 5%Q (fresh, bench_world [pslab_reply]) in
  let before := fst (snd connected) in
  let redone := reconnect bench_CP None None None (before, bench_world [pslab_reply]) in
  fst connected = Ok tt
  /\ interface before = mkSerial (Some ttyUSB0) 9600 (Some 5%Q) (Some 5%Q) true
  /\ fst redone = Ok tt
  /\ interface (fst (snd redone)) =
     mkSerial (Some ttyACM0) 1000000 (Some 1%Q) (Some 1%Q) true.
Proof.
  repeat split.
Qed.

(** * More of the handler *)

(** ** Sending and receiving, both ways *)

Lemma le_value_bound (bs : bytes) : 0 <= le_value bs < 256 ^ len bs.
Proof.
  unfold len. induction bs as [|b bs IH].
  - simpl. lia.
  - cbn [le_value List.length]. rewrite Nat2Z.inj_succ, Z.pow_succ_r by lia.
    pose proof (byte_val_range b). lia.
Qed.

Lemma _get_integer_type_width (size : Z) :
  In size [1; 2; 4] -> _get_integer_type size = Ok (mkStruct (Z.to_nat size)).
Proof. intros [<-|[<-|[<-|[]]]]; reflexivity. Qed.

Lemma _receive_open (size : Z) (h : Handler) (w : World) :
  is_open (interface h) = true ->
  let received := fst (obtain size (rx w)) in
  let w' := set_rx (snd (obtain size (rx w))) (emit (EvRead size) w) in
  _receive size (h, w) =
    if len received =? size
    then (Ok (le_value received), (h, w'))
    else (Ok (-1), (h, record (error_requested size (len received)) w')).
Proof.
  intros Ho received w'. unfold _receive.
  erewrite bind_ok by (now apply interface_read_open).
  fold received. fold w'.
  destruct (Z.eqb_spec (len received) size) as [E|E]; [|reflexivity].
  destruct ((size =? 1) || (size =? 2) || (size =? 4)) eqn:Hs; [|reflexivity].
  assert (Hin : In size [1; 2; 4]).
  { simpl. rewrite !orb_true_iff, !Z.eqb_eq in Hs. intuition. }
  unfold bind, lift. rewrite (_get_integer_type_width size Hin).
  unfold unpack. cbn [width].
  replace (List.length received =? Z.to_nat size)%nat with true; [reflexivity|].
  symmetry. apply Nat.eqb_eq. unfold len in E. lia.
Qed.

(** X2.  On an open port [_receive] always returns, and never touches the
    handler.  It returns -1 exactly when the read came back with another
    number of bytes than asked for; a full read gives the little-endian value
    of the bytes, which lies between 0 and [256 ^ size], so the sentinel is
    never a decoded value. *)
Theorem receive_sentinel_unambiguous :
  forall (size : Z) (h : Handler) (w : World),
    is_open (interface h) = true ->
    let received := fst (obtain size (rx w)) in
    exists r st',
      _receive size (h, w) = (Ok r, st')
      /\ fst st' = h
      /\ (len received <> size -> r = -1)
      /\ (len received = size -> r = le_value received /\ 0 <= r < 256 ^ size).
Proof.
  intros size h w Ho received.
  rewrite _receive_open by assumption. fold received.
  destruct (Z.eqb_spec (len received) size) as [E|E]; eexists _, _;
    (split; [reflexivity|]); (split; [reflexivity|]); split.
  - intros Hne. contradiction.
  - intros _. split; [reflexivity|]. rewrite <- E. apply le_value_bound.
  - intros _. reflexivity.
  - intros Heq. contradiction.
Qed.

Lemma receive_sentinel_unambiguous_witness :
  is_open (interface bench_handler) = true
  /\ exists r st',
      _receive 3 (bench_handler, bench_world [[x01; x02; x03]]) = (Ok r, st')
      /\ r = 197121.
Proof.
  split; [reflexivity|].
  destruct (receive_sentinel_unambiguous 3 bench_handler (bench_world [[x01; x02; x03]]) eq_refl)
    as (r & st' & Hrun & _ & _ & Hfull).
  exists r, st'. split; [exact Hrun|].
  destruct (Hfull eq_refl) as [-> _]. reflexivity.
Defined.

(** X1.  What [_send] writes for an integer with an explicit size of 1, 2
    or 4 is a packet of exactly that many bytes, and [_receive] with the same
    size, reading that packet back, returns the integer. *)
Theorem send_receive_round_trip :
  forall (z size : Z) (h : Handler) (w : World),
    In size [1; 2; 4] ->
    0 <= z < 256 ^ size ->
    load_burst h = false ->
    is_open (interface h) = true ->
    exists packet,
      _send (VInt z) (Some size) (h, w) = (Ok tt, (h, emit (EvWrite packet) w))
      /\ len packet = size
      /\ forall (w' : World) (rest : list bytes),
          rx w' = packet :: rest -> fst (_receive size (h, w')) = Ok z.
Proof.
  intros z size h w Hsize Hz Hoff Ho.
  assert (Hpos : 0 < size) by (destruct Hsize as [<-|[<-|[<-|[]]]]; lia).
  assert (Hpack : packet_of (VInt z) (Some size) = Ok (le_bytes (Z.to_nat size) z)).
  { rewrite packet_of_explicit by assumption. apply pack_ok. rewrite Z2Nat.id by lia. exact Hz. }
  assert (Hlen : len (le_bytes (Z.to_nat size) z) = size).
  { unfold len. rewrite le_bytes_length. lia. }
  exists (le_bytes (Z.to_nat size) z). split; [|split; [exact Hlen|]].
  - now apply send_direct.
  - intros w' rest Hrx. rewrite _receive_open by assumption. rewrite Hrx.
    unfold obtain. destruct (Z.leb_spec size 0); [lia|]. cbn [fst snd].
    rewrite firstn_all2 by (rewrite le_bytes_length; lia).
    rewrite Hlen, Z.eqb_refl. cbn [fst].
    rewrite le_value_bytes; [reflexivity|]. rewrite Z2Nat.id by lia. exact Hz.
Qed.

Lemma send_receive_round_trip_witness :
  In 2 [1; 2; 4]
  /\ 0 <= 300 < 256 ^ 2
  /\ load_burst bench_handler = false
  /\ is_open (interface bench_handler) = true
  /\ exists packet,
      _send (VInt 300) (Some 2) (bench_handler, bench_world []) =
        (Ok tt, (bench_handler, emit (EvWrite packet) (bench_world [])))
      /\ fst (_receive 2 (bench_handler, bench_world [packet])) = Ok 300.
Proof.
  assert (Hsize : In 2 [1; 2; 4]) by (simpl; auto).
  assert (Hz : 0 <= 300 < 256 ^ 2) by lia.
  split; [exact Hsize|]. split; [exact Hz|]. split; [reflexivity|]. split; [reflexivity|].
  destruct (send_receive_round_trip 300 2 bench_handler (bench_world []) Hsize Hz eq_refl eq_refl)
    as (packet & Hsend & _ & Hback).
  exists packet. split; [exact Hsend|].
  apply (Hback (bench_world [packet]) []). reflexivity.
Defined.

(** X3.  A size other than 1, 2 and 4 makes [_send] of an integer raise
    [ValueError] whatever the integer, with nothing written or buffered.  The
    size is looked at for integers only: bytes go out as they are under any
    size. *)
Theorem send_size_checked_for_integers_only :
  forall (size : Z) (st : State),
    ~ In size [1; 2; 4] ->
    (forall z, _send (VInt z) (Some size) st =
               (Raise (ValueError "size must be 1, 2, or 4."), st))
    /\ (forall b, _send (VBytes b) (Some size) st = transmit b st).
Proof.
  intros size st Hsize. split; [|reflexivity].
  intros z. unfold _send, bind, lift, packet_of, _get_integer_type.
  destruct (Z.eqb_spec size 1) as [->|_]; [exfalso; apply Hsize; simpl; auto|].
  destruct (Z.eqb_spec size 2) as [->|_]; [exfalso; apply Hsize; simpl; auto|].
  destruct (Z.eqb_spec size 4) as [->|_]; [exfalso; apply Hsize; simpl; auto|].
  reflexivity.
Qed.

Lemma send_size_checked_for_integers_only_witness :
  ~ In 3 [1; 2; 4]
  /\ _send (VInt 7) (Some 3) (bench_handler, bench_world []) =
     (Raise (ValueError "size must be 1, 2, or 4."), (bench_handler, bench_world [])).
Proof.
  assert (Hsize : ~ In 3 [1; 2; 4]) by (simpl; intros [H|[H|[H|[]]]]; discriminate).
  split; [exact Hsize|].
  exact (proj1 (send_size_checked_for_integers_only 3 (bench_handler, bench_world []) Hsize) 7).
Defined.

(** X4.  Without a size, [_send] accepts exactly the integers from 0 to
    [256 ^ 4 - 1]: a negative integer and one of more than four bytes raise
    the packer's error and leave the state as it was. *)
Theorem send_auto_size_domain :
  forall (z : Z) (h : Handler) (w : World),
    load_burst h = true \/ is_open (interface h) = true ->
    (0 <= z < 256 ^ 4 -> fst (_send (VInt z) None (h, w)) = Ok tt)
    /\ (~ (0 <= z < 256 ^ 4) ->
        _send (VInt z) None (h, w) = (Raise struct_error, (h, w))).
Proof.
  intros z h w Hmode. split.
  - intros Hz. unfold _send, bind, lift. rewrite packet_of_page by assumption.
    destruct (load_burst h) eqn:Hb.
    + now rewrite transmit_burst.
    + destruct Hmode as [|Ho]; [discriminate|]. now rewrite transmit_direct.
  - intros Hz. unfold _send, bind, lift. rewrite packet_of_auto, pack_overflow; [reflexivity|].
    rewrite Z2Nat.id; destruct (auto_size_cases z) as [[H ->]|[[H ->]|[H ->]]]; lia.
Qed.

Lemma send_auto_size_domain_witness :
  (load_burst bench_handler = true \/ is_open (interface bench_handler) = true)
  /\ ~ (0 <= -1 < 256 ^ 4)
  /\ _send (VInt (-1)) None (bench_handler, bench_world []) =
     (Raise struct_error, (bench_handler, bench_world [])).
Proof.
  assert (Hmode : load_burst bench_handler = true \/ is_open (interface bench_handler) = true)
    by (right; reflexivity).
  assert (Hz : ~ (0 <= -1 < 256 ^ 4)) by lia.
  split; [exact Hmode|]. split; [exact Hz|].
  exact (proj2 (send_auto_size_domain (-1) bench_handler (bench_world []) Hmode) Hz).
Defined.

(** ** More about burst mode *)

Lemma sendable_deferrable (ops : list op) : Forall sendable ops -> Forall deferrable ops.
Proof.
  intros H. induction H as [|o ops Ho _ IH]; constructor; [|exact IH].
  destruct o; simpl in *; auto; contradiction.
Qed.

Lemma sendable_payload (ops : list op) :
  Forall sendable ops -> List.concat (packets ops) = payload ops /\ deferred ops = 0.
Proof.
  intros H. induction H as [|o ops Ho _ [IHp IHd]]; [split; reflexivity|].
  destruct o as [v size| | |b]; simpl in Ho; try contradiction.
  destruct Ho as [packet Hp]. cbn [packets payload deferred]. rewrite Hp.
  cbn [List.concat]. now rewrite IHp.
Qed.

Lemma run_all_direct (ops : list op) :
  forall (h : Handler) (w : World),
    Forall sendable ops -> load_burst h = false -> is_open (interface h) = true ->
    run_all ops (h, w) =
      (Ok [], (h, mkWorld (openable w) (comports w) (rx w)
                          (trace w ++ map EvWrite (packets ops)) (log w))).
Proof.
  induction ops as [|o ops IH]; intros h w Hall Hoff Ho.
  - cbn [run_all packets map]. unfold ret. rewrite app_nil_r. now destruct w.
  - inversion Hall as [|? ? Hs Hops]; subst.
    destruct o as [v size| | |b]; simpl in Hs; try contradiction.
    destruct Hs as [packet Hp].
    cbn [run_all run packets]. rewrite Hp.
    unfold bind at 1. unfold bind at 1.
    unfold _send, bind at 1, lift. rewrite Hp.
    rewrite transmit_direct by assumption. unfold ret at 1.
    unfold bind. rewrite IH by assumption. unfold ret.
    cbn [emit openable comports rx trace log map app].
    now rewrite <- app_assoc.
Qed.

(** X5.  The same sequence of [_send] calls puts the same bytes on the
    line in both modes: in direct mode one write per packet, in burst mode,
    after [send_burst], a single write of the packets joined in order,
    followed by a read of zero bytes that takes nothing from the peer. *)
Theorem burst_sends_same_bytes_as_direct :
  forall (ops : list op) (h : Handler) (w : World),
    Forall sendable ops ->
    is_open (interface h) = true ->
    burst_buffer h = [] ->
    input_queue_size h = 0 ->
    trace (snd (snd (run_all ops (set_load_burst false h, w)))) =
      trace w ++ map EvWrite (packets ops)
    /\ trace (snd (snd (run_all (ops ++ [OpSendBurst]) (set_load_burst true h, w)))) =
       trace w ++ [EvWrite (List.concat (packets ops)); EvRead 0]
    /\ rx (snd (snd (run_all (ops ++ [OpSendBurst]) (set_load_burst true h, w)))) = rx w.
Proof.
  intros ops h w Hall Ho Hbuf Hcount.
  destruct (sendable_payload ops Hall) as [Hconcat Hnone].
  split; [|split].
  - rewrite run_all_direct by (auto). reflexivity.
  - rewrite run_all_app, run_all_deferred by (auto using sendable_deferrable).
    cbn [run_all run]. unfold bind at 1.
    rewrite send_burst_open by assumption.
    unfold bind, ret.
    cbn [fst snd set_load_burst burst_buffer input_queue_size set_rx emit trace].
    rewrite Hbuf, Hcount, Hnone, Hconcat. cbn [app Z.add].
    now rewrite <- app_assoc.
  - rewrite run_all_app, run_all_deferred by (auto using sendable_deferrable).
    cbn [run_all run]. unfold bind at 1.
    rewrite send_burst_open by assumption.
    unfold bind, ret.
    cbn [fst snd set_load_burst burst_buffer input_queue_size set_rx emit rx].
    rewrite Hcount, Hnone. reflexivity.
Qed.

(** ** A closed port *)

(** X6.  Burst mode does not look at the port.  On a closed port the
    deferred [_send] and [get_ack] calls all succeed and fill the buffer and
    the counter; [send_burst] then raises [PortNotOpenError] and leaves the
    buffer, the counter and the mode as they were, so nothing is lost. *)
Theorem burst_survives_closed_port :
  forall (ops : list op) (h : Handler) (w : World),
    Forall deferrable ops ->
    load_burst h = true ->
    is_open (interface h) = false ->
    exists h',
      run_all ops (h, w) = (Ok (repeat 1 (Z.to_nat (deferred ops))), (h', w))
      /\ burst_buffer h' = burst_buffer h ++ payload ops
      /\ input_queue_size h' = input_queue_size h + deferred ops
      /\ send_burst (h', w) = (Raise PortNotOpenError, (h', w)).
Proof.
  intros ops h w Hall Hon Hclosed.
  eexists. rewrite run_all_deferred by assumption.
  split; [reflexivity|]. split; [reflexivity|]. split; [reflexivity|].
  unfold send_burst, bind, gets, interface_write. cbn [fst snd interface].
  now rewrite Hclosed.
Qed.

Lemma burst_survives_closed_port_witness :
  let ops := [OpSend (VInt 5) None; OpGetAck] in
  let h := mkHandler [] true 0 [] (mkSerial (Some ttyACM0) 1000000 (Some 1%Q) (Some 1%Q) false) in
  Forall deferrable ops
  /\ load_burst h = true
  /\ is_open (interface h) = false
  /\ exists h',
      run_all ops (h, bench_world []) = (Ok [1], (h', bench_world []))
      /\ burst_buffer h' = [x05]
      /\ send_burst (h', bench_world []) = (Raise PortNotOpenError, (h', bench_world [])).
Proof.
  intros ops h.
  assert (Hall : Forall deferrable ops).
  { repeat constructor. eexists; reflexivity. }
  split; [exact Hall|]. split; [reflexivity|]. split; [reflexivity|].
  destruct (burst_survives_closed_port ops h (bench_world []) Hall eq_refl eq_refl)
    as (h' & Hrun & Hbuf & _ & Hflush).
  exists h'. split; [exact Hrun|]. split; [exact Hbuf | exact Hflush].
Defined.

(** X7.  A [send_burst] right after a [send_burst] finds nothing to flush:
    it writes the empty byte string, reads zero bytes without taking any
    from the peer, and returns the empty list. *)
Theorem send_burst_again_is_empty :
  forall (h : Handler) (w : World),
    is_open (interface h) = true ->
    let st1 := snd (send_burst (h, w)) in
    send_burst st1 =
      (Ok [], (fst st1, emit (EvRead 0) (emit (EvWrite []) (snd st1)))).
Proof.
  intros h w Ho st1. subst st1.
  rewrite send_burst_open by assumption. cbn [snd].
  rewrite send_burst_open by assumption.
  cbn [burst_buffer input_queue_size version interface rx set_rx emit fst snd obtain Z.leb].
  unfold obtain. cbn. destruct w; reflexivity.
Qed.

Lemma send_burst_again_is_empty_witness :
  let h := mkHandler [x05] true 1 [] (interface bench_handler) in
  let st1 := snd (send_burst (h, bench_world [[x01]; [x07]])) in
  is_open (interface h) = true
  /\ fst (send_burst st1) = Ok []
  /\ rx (snd (snd (send_burst st1))) = [[x07]].
Proof.
  intros h st1. split; [reflexivity|].
  pose proof (send_burst_again_is_empty h (bench_world [[x01]; [x07]]) eq_refl) as H.
  fold st1 in H. rewrite H. split; reflexivity.
Defined.

(** X8.  On a closed port every method that goes to the line raises
    [PortNotOpenError] and changes nothing: [_receive], [send_burst], and in
    direct mode [get_ack] and [_send]. *)
Theorem closed_port_refuses_io :
  forall (h : Handler) (w : World),
    is_open (interface h) = false ->
    (forall size, _receive size (h, w) = (Raise PortNotOpenError, (h, w)))
    /\ send_burst (h, w) = (Raise PortNotOpenError, (h, w))
    /\ (load_burst h = false ->
        get_ack (h, w) = (Raise PortNotOpenError, (h, w))
        /\ forall v size packet,
            packet_of v size = Ok packet ->
            _send v size (h, w) = (Raise PortNotOpenError, (h, w))).
Proof.
  intros h w Hclosed. split; [|split].
  - intros size. unfold _receive, bind, interface_read. cbn [fst snd]. now rewrite Hclosed.
  - unfold send_burst, bind, gets, interface_write. cbn [fst snd]. now rewrite Hclosed.
  - intros Hoff. split.
    + unfold get_ack, bind, gets. cbn [fst snd]. rewrite Hoff. cbn [negb].
      unfold interface_read. cbn [fst snd]. now rewrite Hclosed.
    + intros v size packet Hp. unfold _send, bind, lift. rewrite Hp.
      unfold transmit, bind, gets. cbn [fst snd]. rewrite Hoff.
      unfold interface_write. cbn [fst snd]. now rewrite Hclosed.
Qed.

(** X9.  [disconnect] never raises.  It leaves the port closed and keeps
    the burst state, the version string and the port name; a second
    [disconnect], or [__del__], after it changes nothing at all. *)
Theorem disconnect_idempotent :
  forall st : State,
    let st1 := snd (disconnect st) in
    fst (disconnect st) = Ok tt
    /\ is_open (interface (fst st1)) = false
    /\ same_burst (fst st) (fst st1)
    /\ version (fst st1) = version (fst st)
    /\ port (interface (fst st1)) = port (interface (fst st))
    /\ disconnect st1 = (Ok tt, st1)
    /\ __del__ st1 = (Ok tt, st1).
Proof.
  intros [h w]. unfold disconnect, __del__, interface_close, same_burst. cbn [fst snd].
  destruct (is_open (interface h)) eqn:Ho; cbn [fst snd set_interface set_is_open interface
    is_open burst_buffer load_burst input_queue_size version port]; rewrite ?Ho; repeat split.
Qed.

(** ** The handshake and autodetection *)

Lemma Zlist_eqb_eq (a b : list Z) : Zlist_eqb a b = true <-> a = b.
Proof.
  revert b. induction a as [|x a IH]; intros [|y b]; simpl; try (split; congruence).
  rewrite andb_true_iff, IH, Z.eqb_eq. split.
  - intros [-> ->]. reflexivity.
  - intros [= -> ->]. split; reflexivity.
Qed.

Lemma str_in_substring (needle hay : str) :
  str_in needle hay = true <-> exists before after, hay = before ++ needle ++ after.
Proof.
  induction hay as [|c hay IH].
  - cbn [str_in]. rewrite orb_false_r, Zlist_eqb_eq. split.
    + rewrite firstn_nil. intros ->. exists [], []. reflexivity.
    + intros (before & after & H). symmetry in H.
      apply app_eq_nil in H as [_ H]. apply app_eq_nil in H as [-> _].
      now rewrite firstn_nil.
  - cbn [str_in]. rewrite orb_true_iff, Zlist_eqb_eq, IH. split.
    + intros [Hhead | (before & after & ->)].
      * exists [], (skipn (List.length needle) (c :: hay)).
        cbn [app]. rewrite Hhead at 1. now rewrite firstn_skipn.
      * exists (c :: before), after. reflexivity.
    + intros (before & after & H). destruct before as [|b before].
      * left. cbn [app] in H. rewrite H.
        rewrite firstn_app, firstn_all, Nat.sub_diag. cbn [firstn]. now rewrite app_nil_r.
      * right. injection H as _ ->. exists before, after. reflexivity.
Qed.

(** X10.  The test that [connect] applies to the handshake reply accepts a
    version string exactly when "PSLab" or "CSpark" occurs in it as a
    contiguous piece. *)
Theorem any_expected_iff_marker :
  forall version : str,
    any_expected version = true <->
    exists before after,
      version = before ++ str_of_string "PSLab" ++ after
      \/ version = before ++ str_of_string "CSpark" ++ after.
Proof.
  intros version. unfold any_expected. cbn [existsb].
  rewrite orb_false_r, orb_true_iff, !str_in_substring. split.
  - intros [(b & a & H) | (b & a & H)]; exists b, a; auto.
  - intros (b & a & [H | H]); [left | right]; exists b, a; exact H.
Qed.

Lemma same_burst_refl (h : Handler) : same_burst h h.
Proof. repeat split. Qed.

Lemma same_burst_trans (h1 h2 h3 : Handler) :
  same_burst h1 h2 -> same_burst h2 h3 -> same_burst h1 h3.
Proof.
  unfold same_burst. intros (H1 & H2 & H3) (H4 & H5 & H6). repeat split; congruence.
Qed.

Lemma interface_open_frame (st : State) : same_burst (fst st) (fst (snd (interface_open st))).
Proof.
  unfold interface_open.
  destruct (port (interface (fst st))) as [name|]; [|apply same_burst_refl].
  destruct (is_open (interface (fst st))); [apply same_burst_refl|].
  destruct (can_open name (snd st)); repeat split.
Qed.

Lemma interface_close_frame (st : State) : same_burst (fst st) (fst (snd (interface_close st))).
Proof.
  unfold interface_close. destruct (is_open (interface (fst st))); repeat split.
Qed.

Lemma interface_set_port_frame (name : string) (st : State) :
  same_burst (fst st) (fst (snd (interface_set_port name st))).
Proof.
  unfold interface_set_port, bind, gets, modify, ret. cbn [fst snd].
  destruct (is_open (interface (fst st))) eqn:Ho.
  - unfold interface_close. rewrite Ho.
    match goal with |- context [interface_open ?s] =>
      pose proof (interface_open_frame s) as H; destruct (interface_open s) as [[[]|e] s']
    end; exact H.
  - repeat split.
Qed.

(** The states that [interface_open] and the port assignment lead to. *)
Lemma interface_open_closed (st : State) (name : string) :
  port (interface (fst st)) = Some name ->
  is_open (interface (fst st)) = false ->
  interface_open st =
    if can_open name (snd st)
    then (Ok tt, (set_interface (set_is_open true (interface (fst st))) (fst st),
                  emit (EvOpen name) (snd st)))
    else (Raise (SerialException "could not open port"), st).
Proof. intros Hp Ho. unfold interface_open. now rewrite Hp, Ho. Qed.

Lemma interface_open_opened (st : State) (name : string) :
  port (interface (fst st)) = Some name ->
  is_open (interface (fst st)) = true ->
  interface_open st = (Raise (SerialException "Port is already open."), st).
Proof. intros Hp Ho. unfold interface_open. now rewrite Hp, Ho. Qed.

Lemma interface_set_port_closed (name : string) (h : Handler) (w : World) :
  is_open (interface h) = false ->
  interface_set_port name (h, w) =
    (Ok tt, (set_interface (set_port (Some name) (interface h)) h, w)).
Proof.
  intros Ho. unfold interface_set_port, bind, gets, modify, ret. cbn [fst snd].
  now rewrite Ho.
Qed.

Lemma interface_set_port_opened (name : string) (h : Handler) (w : World) :
  is_open (interface h) = true ->
  interface_set_port name (h, w) =
    if can_open name w
    then (Ok tt, (set_interface (mkSerial (Some name) (baudrate (interface h))
                                          (timeout (interface h))
                                          (write_timeout (interface h)) true) h,
                  emit (EvOpen name) (emit EvClose w)))
    else (Raise (SerialException "could not open port"),
          (set_interface (mkSerial (Some name) (baudrate (interface h))
                                   (timeout (interface h))
                                   (write_timeout (interface h)) false) h,
           emit EvClose w)).
Proof.
  intros Ho. destruct h as [bb lb iq ver [p b t wt o]]. cbn in Ho. subst o.
  unfold interface_set_port, bind, gets, modify, ret, interface_close, interface_open, can_open.
  cbn [fst snd set_interface set_is_open set_port interface port is_open baudrate timeout
       write_timeout emit openable burst_buffer load_burst input_queue_size version].
  destruct (existsb (String.eqb name) (openable w)); reflexivity.
Qed.

Section Autodetection.

Variable CP : commands_proto.

Lemma get_version_open (h : Handler) (w : World) :
  is_open (interface h) = true ->
  let line := match rx w with [] => [] | r :: _ => line_of r end in
  let w' := set_rx (tl (rx w))
                   (emit EvReadline (emit (EvWrite (GET_VERSION CP))
                                          (emit (EvWrite (COMMON CP)) w))) in
  get_version CP (h, w) =
    match utf8_decode line with
    | Some v => (Ok v, (h, w'))
    | None => (Raise UnicodeDecodeError, (h, w'))
    end.
Proof.
  intros Ho line w'. unfold get_version.
  erewrite bind_ok by (now apply interface_write_open).
  erewrite bind_ok by (now apply interface_write_open).
  unfold bind, interface_readline. cbn [fst snd]. rewrite Ho. cbn [rx emit].
  subst line w'. destruct (rx w) as [|r rest] eqn:Hrx; cbn [tl].
  - cbn [utf8_decode]. unfold ret. destruct w. cbn in Hrx. subst. reflexivity.
  - destruct (utf8_decode (line_of r)); reflexivity.
Qed.

Lemma autodetect_frame (ports : list string) :
  forall st : State, same_burst (fst st) (fst (snd (autodetect CP ports st))).
Proof.
  induction ports as [|device ports IH]; intros st; [apply same_burst_refl|].
  cbn [autodetect]. unfold bind.
  pose proof (interface_set_port_frame device st) as H1.
  destruct (interface_set_port device st) as [[[]|e1] st1]; cbn [fst snd] in *; [|exact H1].
  pose proof (interface_open_frame st1) as H2.
  destruct (interface_open st1) as [[[]|e2] st2]; cbn [fst snd] in *;
    [|exact (same_burst_trans _ _ _ H1 H2)].
  destruct (get_version_handler CP st2) as [H3 _].
  destruct (get_version CP st2) as [[v|e3] st3]; cbn [fst snd] in *;
    [|rewrite H3; exact (same_burst_trans _ _ _ H1 H2)].
  destruct (any_expected v).
  - unfold ret. cbn [fst snd]. rewrite H3. exact (same_burst_trans _ _ _ H1 H2).
  - eapply same_burst_trans; [|apply IH]. rewrite H3.
    exact (same_burst_trans _ _ _ H1 H2).
Qed.

(** On an interface that is open already, the loop cannot get past its
    first candidate. *)
Lemma autodetect_on_open (device : string) (ports : list string) (h : Handler) (w : World) :
  is_open (interface h) = true ->
  exists e st', autodetect CP (device :: ports) (h, w) = (Raise (SerialException e), st').
Proof.
  intros Ho. cbn [autodetect]. unfold bind at 1.
  rewrite interface_set_port_opened by assumption.
  destruct (can_open device w); [|eexists _, _; reflexivity].
  unfold bind at 1. erewrite interface_open_opened by reflexivity.
  eexists _, _; reflexivity.
Qed.

Lemma autodetect_first (ports : list string) (h : Handler) (w : World) (v : str) (st' : State) :
  is_open (interface h) = false ->
  autodetect CP ports (h, w) = (Ok v, st') ->
  any_expected v = true ->
  exists device rest,
    ports = device :: rest
    /\ port (interface (fst st')) = Some device
    /\ is_open (interface (fst st')) = true.
Proof.
  intros Hclosed Hrun Hv. destruct ports as [|device rest].
  - cbn [autodetect] in Hrun. injection Hrun as <- _. discriminate.
  - exists device, rest. split; [reflexivity|].
    cbn [autodetect] in Hrun. unfold bind at 1 in Hrun.
    rewrite interface_set_port_closed in Hrun by assumption.
    unfold bind at 1 in Hrun.
    rewrite (interface_open_closed _ device) in Hrun by (try reflexivity; exact Hclosed).
    cbn [fst snd] in Hrun.
    destruct (can_open device w); [|discriminate].
    unfold bind at 1 in Hrun.
    rewrite get_version_open in Hrun by reflexivity.
    match type of Hrun with context [utf8_decode ?l] => destruct (utf8_decode l) as [v1|] end;
      [|discriminate].
    destruct (any_expected v1) eqn:Hv1.
    + injection Hrun as <- <-. split; reflexivity.
    + destruct rest as [|device2 rest].
      * cbn [autodetect] in Hrun. injection Hrun as <- _. discriminate.
      * match type of Hrun with autodetect _ _ (?h1, ?w1) = _ =>
          destruct (autodetect_on_open device2 rest h1 w1 eq_refl) as (e & st2 & Hfail)
        end.
        rewrite Hfail in Hrun. discriminate.
Qed.

End Autodetection.

Section Connected.

Variable CP : commands_proto.

Lemma connect_frame (p : option string) (baud : Z) (t : Q) (st : State) :
  same_burst (fst st) (fst (snd (connect CP p baud t st))).
Proof.
  unfold connect, bind.
  destruct (serial_Serial p baud (Some t) (Some t) st) as [[s|e] st1] eqn:Hs.
  2:{ unfold serial_Serial in Hs. destruct p as [name|]; [|discriminate].
      destruct (can_open name (snd st)); [discriminate|]. injection Hs as _ <-.
      apply same_burst_refl. }
  assert (H1 : same_burst (fst st) (set_interface s (fst st1))).
  { unfold serial_Serial in Hs. destruct p as [name|].
    - destruct (can_open name (snd st)); [|discriminate]. injection Hs as _ <-. repeat split.
    - injection Hs as _ <-. repeat split. }
  unfold modify at 1, gets at 1. cbn [fst snd].
  match goal with
  | |- context [(if ?o then ?a else ?b) ?s0] =>
    assert (H2 : same_burst (fst s0) (fst (snd ((if o then a else b) s0))));
    [destruct o;
     [destruct (get_version_handler CP s0) as [-> _]; apply same_burst_refl
     |apply autodetect_frame]|];
    destruct ((if o then a else b) s0) as [[v|e] st2]
  end; cbn [fst snd] in *.
  2:{ exact (same_burst_trans _ _ _ H1 H2). }
  destruct (any_expected v).
  - unfold modify, gets, logger. cbn [fst snd].
    eapply same_burst_trans; [exact (same_burst_trans _ _ _ H1 H2)|]. repeat split.
  - pose proof (interface_close_frame st2) as H3.
    destruct (interface_close st2) as [[[]|e] st3]; cbn [fst snd] in *.
    + unfold modify, raise. cbn [fst snd].
      eapply same_burst_trans; [exact (same_burst_trans _ _ _ H1 H2)|].
      eapply same_burst_trans; [exact H3|]. repeat split.
    + eapply same_burst_trans; [exact (same_burst_trans _ _ _ H1 H2)|]. exact H3.
Qed.

Lemma connect_port (p : option string) (baud : Z) (t : Q) (h : Handler) (w : World) :
  match connect CP p baud t (h, w) with
  | (Ok _, st') =>
    is_open (interface (fst st')) = true
    /\ match p with
       | Some name => port (interface (fst st')) = Some name
       | None => exists device rest,
                   comports w = device :: rest /\ port (interface (fst st')) = Some device
       end
  | (Raise e, st') =>
    e = SerialException "Device not found." -> is_open (interface (fst st')) = false
  end.
Proof.
  unfold connect. destruct p as [name|].
  - unfold bind at 1. unfold serial_Serial. cbn [fst snd].
    destruct (can_open name w); [|discriminate].
    unfold bind at 1, modify at 1. cbn [fst snd].
    unfold bind at 1, gets at 1.
    cbn [fst snd set_interface interface is_open].
    unfold bind at 1. rewrite get_version_open by reflexivity.
    match goal with |- context [utf8_decode ?l] => destruct (utf8_decode l) as [v|] end;
      [|discriminate].
    destruct (any_expected v).
    + unfold bind, modify, gets, logger. cbn [fst snd]. split; reflexivity.
    + unfold bind, interface_close, modify, raise. cbn [fst snd set_interface interface is_open].
      reflexivity.
  - unfold bind at 1. unfold serial_Serial.
    unfold bind at 1, modify at 1. cbn [fst snd].
    unfold bind at 1, gets at 1.
    cbn [fst snd set_interface interface is_open comports].
    unfold bind at 1. cbn [fst snd].
    match goal with |- context [autodetect CP (comports w) ?s0] =>
      pose proof (autodetect_version CP (comports w) s0) as [_ Hne];
      destruct (autodetect CP (comports w) s0) as [[v|e] st2] eqn:Hauto
    end.
    2:{ intros ->. cbn in Hne. congruence. }
    destruct (any_expected v) eqn:Hv.
    + apply autodetect_first in Hauto; [|reflexivity|exact Hv].
      destruct Hauto as (device & rest & Hports & Hport & Ho).
      unfold bind, modify, gets, logger. cbn [fst snd set_version interface].
      split; [exact Ho|]. exists device, rest. split; assumption.
    + unfold bind, modify, raise. 
      pose proof (interface_close_version st2) as [Hok _].
      destruct (interface_close st2) as [[[]|e] st3] eqn:Hclose; [|discriminate].
      intros _. cbn [fst snd set_version interface].
      unfold interface_close in Hclose.
      destruct (is_open (interface (fst st2))) eqn:Ho; injection Hclose as <-; [reflexivity|exact Ho].
Qed.

End Connected.

Section ConnectionExtras.

Variable CP : commands_proto.

(** X11.  A [connect] that returns leaves the port open at the rate and
    timeout it was given.  With a port given, the handler is on that port;
    without one, it is on the first port that the enumeration yields, and on
    no other. *)
Theorem connect_success_state :
  forall (p : option string) (baud : Z) (t : Q) (h : Handler) (w : World),
    fst (connect CP p baud t (h, w)) = Ok tt ->
    let h' := fst (snd (connect CP p baud t (h, w))) in
    is_open (interface h') = true
    /\ baudrate (interface h') = baud
    /\ timeout (interface h') = Some t
    /\ match p with
       | Some name => port (interface h') = Some name
       | None => exists device rest,
                   comports w = device :: rest /\ port (interface h') = Some device
       end.
Proof.
  intros p baud t h w Hok h'. subst h'.
  pose proof (connect_port CP p baud t h w) as Hport.
  pose proof (connect_rate CP p baud t (h, w)) as Hrate.
  destruct (connect CP p baud t (h, w)) as [[[]|e] st']; [|discriminate].
  cbn [fst snd]. destruct Hport as [Ho Hp], Hrate as [Hb Ht]. auto.
Qed.

(** X12.  A [connect] that fails with "Device not found." has closed the
    port before raising. *)
Theorem connect_not_found_closes :
  forall (p : option string) (baud : Z) (t : Q) (h : Handler) (w : World),
    fst (connect CP p baud t (h, w)) = Raise (SerialException "Device not found.") ->
    is_open (interface (fst (snd (connect CP p baud t (h, w))))) = false.
Proof.
  intros p baud t h w Hfail.
  pose proof (connect_port CP p baud t h w) as Hport.
  destruct (connect CP p baud t (h, w)) as [[[]|e] st']; [discriminate|].
  cbn [fst snd] in *. injection Hfail as ->. now apply Hport.
Qed.

(** X13.  Neither [connect], whatever its outcome, nor [disconnect]
    touches the burst buffer, the burst flag or the pending-acknowledgment
    counter. *)
Theorem connect_keeps_burst_state :
  forall (p : option string) (baud : Z) (t : Q) (st : State),
    same_burst (fst st) (fst (snd (connect CP p baud t st)))
    /\ same_burst (fst st) (fst (snd (disconnect st))).
Proof.
  intros p baud t st. split; [apply connect_frame | apply interface_close_frame].
Qed.

(** X14.  Without a port and with no candidate to enumerate, [connect]
    fails with "Device not found." and leaves the handler detached: its
    version is emptied and its interface is a new unopened [Serial] that
    carries the baudrate and the timeout given and no port name, in place of
    the interface it held before; the burst state is as it was. *)
Theorem connect_no_candidate :
  forall (baud : Z) (t : Q) (h : Handler) (w : World),
    comports w = [] ->
    fst (connect CP None baud t (h, w)) = Raise (SerialException "Device not found.")
    /\ fst (snd (connect CP None baud t (h, w))) =
       mkHandler (burst_buffer h) (load_burst h) (input_queue_size h) []
                 (mkSerial None baud (Some t) (Some t) false).
Proof.
  intros baud t h w Hnone.
  unfold connect, bind, serial_Serial, modify, gets. cbn [fst snd set_interface interface is_open].
  rewrite Hnone. cbn [autodetect]. unfold ret. cbn [any_expected].
  unfold interface_close, raise. cbn. split; reflexivity.
Qed.

(** X15.  When the port named to [connect] cannot be opened, the
    constructor's exception leaves everything as it was: the previous
    interface, the version string, the world. *)
Theorem connect_unopenable_port_changes_nothing :
  forall (name : string) (baud : Z) (t : Q) (st : State),
    can_open name (snd st) = false ->
    connect CP (Some name) baud t st = (Raise (SerialException "could not open port"), st).
Proof.
  intros name baud t st Hno. unfold connect, bind, serial_Serial. now rewrite Hno.
Qed.

(** X16.  When the reply of the device on the named port is not valid
    UTF-8, [connect] raises [UnicodeDecodeError] from the handshake and never
    reaches its clean-up: the port stays open, no close is issued, and the
    version string is what it was. *)
Theorem connect_undecodable_reply_leaves_port_open :
  forall (name : string) (baud : Z) (t : Q) (h : Handler) (w : World)
         (reply : bytes) (rest : list bytes),
    can_open name w = true ->
    rx w = reply :: rest ->
    utf8_decode (line_of reply) = None ->
    exists w',
      connect CP (Some name) baud t (h, w) =
        (Raise UnicodeDecodeError,
         (set_interface (mkSerial (Some name) baud (Some t) (Some t) true) h, w'))
      /\ ~ In EvClose (skipn (List.length (trace w)) (trace w')).
Proof.
  intros name baud t h w reply rest Hcan Hrx Hbad.
  unfold connect. unfold bind at 1. unfold serial_Serial. cbn [fst snd]. rewrite Hcan.
  unfold bind at 1, modify at 1. cbn [fst snd].
  unfold bind at 1, gets at 1. cbn [fst snd set_interface interface is_open].
  unfold bind at 1. rewrite get_version_open by reflexivity.
  cbn [rx emit]. rewrite Hrx. rewrite Hbad.
  eexists. split; [reflexivity|].
  cbn [trace set_rx emit]. rewrite <- !app_assoc. rewrite skipn_app.
  rewrite skipn_all, Nat.sub_diag. cbn [app skipn].
  intros [H|[H|[H|[H|[]]]]]; discriminate.
Qed.

(** X17.  With two candidates that can be opened, where the first answers
    the handshake without a marker, [connect] fails with
    "Port is already open.": assigning the second name to the open interface
    reopens it, and the [open()] that follows refuses.  The second candidate is left open and
    is never asked for its version. *)
Theorem autodetect_stops_at_second_candidate :
  forall (baud : Z) (t : Q) (h : Handler) (w : World)
         (first second : string) (others : list string)
         (reply : bytes) (rest : list bytes) (v : str),
    comports w = first :: second :: others ->
    can_open first w = true ->
    can_open second w = true ->
    rx w = reply :: rest ->
    utf8_decode (line_of reply) = Some v ->
    any_expected v = false ->
    exists w',
      connect CP None baud t (h, w) =
        (Raise (SerialException "Port is already open."),
         (set_interface (mkSerial (Some second) baud (Some t) (Some t) true) h, w'))
      /\ rx w' = rest.
Proof.
  intros baud t h w first second others reply rest v Hports Hc1 Hc2 Hrx Hdec Hv.
  unfold connect. unfold bind at 1. unfold serial_Serial.
  unfold bind at 1, modify at 1. cbn [fst snd].
  unfold bind at 1, gets at 1. cbn [fst snd set_interface interface is_open].
  unfold bind at 1. cbn [fst snd]. rewrite Hports.
  cbn [autodetect]. unfold bind at 1.
  rewrite interface_set_port_closed by reflexivity.
  unfold bind at 1.
  rewrite (interface_open_closed _ first) by reflexivity.
  cbn [fst snd]. rewrite Hc1.
  unfold bind at 1. rewrite get_version_open by reflexivity.
  cbn [rx emit]. rewrite Hrx, Hdec, Hv.
  unfold bind at 1. rewrite interface_set_port_opened by reflexivity.
  unfold can_open in *. cbn [set_rx emit openable]. rewrite Hc2.
  unfold bind at 1. rewrite (interface_open_opened _ second) by reflexivity.
  eexists. split; [reflexivity|]. reflexivity.
Qed.

End ConnectionExtras.

Section Reconnection.

Variable CP : commands_proto.

Lemma reconnect_port (p : option string) (baud : option Z) (t : option Q)
      (h : Handler) (w : World) :
  match reconnect CP p baud t (h, w) with
  | (Ok _, st') =>
    is_open (interface (fst st')) = true
    /\ exists device rest,
        comports w = device :: rest /\ port (interface (fst st')) = Some device
  | (Raise _, _) => True
  end.
Proof.
  unfold reconnect. unfold bind at 1. unfold disconnect, interface_close. cbn [fst snd].
  destruct (is_open (interface h)).
  - unfold bind at 1, gets at 1. cbn [fst snd].
    unfold bind at 1.
    match goal with |- context [serial_Serial ?a ?b ?c ?d ?s] =>
      destruct (serial_Serial a b c d s) as [[s2|e] [h2 w2]] eqn:Hs
    end; [|exact I].
    assert (Hw : comports w2 = comports w).
    { unfold serial_Serial in Hs.
      match type of Hs with context [match ?q with Some _ => _ | None => _ end] =>
        destruct q as [name|] end.
      - match type of Hs with context [if ?c then _ else _] => destruct c end;
          [|discriminate]. injection Hs as _ _ <-. reflexivity.
      - injection Hs as _ _ <-. reflexivity. }
    unfold bind at 1, modify at 1. cbn [fst snd].
    pose proof (connect_port CP None 1000000 1%Q (set_interface s2 h2) w2) as Hc.
    destruct (connect CP None 1000000 1%Q (set_interface s2 h2, w2)) as [[[]|e] st']; [|exact I].
    rewrite Hw in Hc. exact Hc.
  - unfold bind at 1, gets at 1. cbn [fst snd].
    unfold bind at 1.
    match goal with |- context [serial_Serial ?a ?b ?c ?d ?s] =>
      destruct (serial_Serial a b c d s) as [[s2|e] [h2 w2]] eqn:Hs
    end; [|exact I].
    assert (Hw : comports w2 = comports w).
    { unfold serial_Serial in Hs.
      match type of Hs with context [match ?q with Some _ => _ | None => _ end] =>
        destruct q as [name|] end.
      - match type of Hs with context [if ?c then _ else _] => destruct c end;
          [|discriminate]. injection Hs as _ _ <-. reflexivity.
      - injection Hs as _ _ <-. reflexivity. }
    unfold bind at 1, modify at 1. cbn [fst snd].
    pose proof (connect_port CP None 1000000 1%Q (set_interface s2 h2) w2) as Hc.
    destruct (connect CP None 1000000 1%Q (set_interface s2 h2, w2)) as [[[]|e] st']; [|exact I].
    rewrite Hw in Hc. exact Hc.
Qed.

(** X18.  A [reconnect] that returns has connected at 1000000 baud with a
    timeout of one second to the first enumerated port, whatever port,
    baudrate and timeout the caller passed or the previous connection
    had. *)
Theorem reconnect_ignores_every_setting :
  forall (p : option string) (baud : option Z) (t : option Q) (h : Handler) (w : World),
    fst (reconnect CP p baud t (h, w)) = Ok tt ->
    let h' := fst (snd (reconnect CP p baud t (h, w))) in
    is_open (interface h') = true
    /\ baudrate (interface h') = 1000000
    /\ timeout (interface h') = Some 1%Q
    /\ exists device rest,
        comports w = device :: rest /\ port (interface h') = Some device.
Proof.
  intros p baud t h w Hok h'. subst h'.
  pose proof (reconnect_port p baud t h w) as Hport.
  pose proof (reconnect_rate CP p baud t (h, w)) as Hrate.
  destruct (reconnect CP p baud t (h, w)) as [[[]|e] st']; [|discriminate].
  cbn [fst snd]. destruct Hport as [Ho Hp], Hrate as [Hb Ht]. auto.
Qed.

(** X19.  A handler whose constructor returns starts in direct mode with an
    empty burst buffer and no pending acknowledgment, on an open port, with a
    version string that carries a marker. *)
Theorem init_starts_in_direct_mode :
  forall (p : option string) (baud : Z) (t : Q) (st : State),
    fst (__init__ CP p baud t st) = Ok tt ->
    let h' := fst (snd (__init__ CP p baud t st)) in
    burst_buffer h' = []
    /\ load_burst h' = false
    /\ input_queue_size h' = 0
    /\ burst_invariant h'
    /\ is_open (interface h') = true
    /\ any_expected (version h') = true.
Proof.
  intros p baud t [h w] Hok h'. subst h'.
  assert (Hinit : __init__ CP p baud t (h, w) = connect CP p baud t (fresh, w)) by reflexivity.
  rewrite Hinit in *. clear Hinit.
  pose proof (connect_frame CP p baud t (fresh, w)) as (Hb & Hl & Hq).
  pose proof (connect_port CP p baud t fresh w) as Hport.
  pose proof (connect_outcome CP p baud t (fresh, w)) as Hver.
  destruct (connect CP p baud t (fresh, w)) as [[[]|e] st']; [|discriminate].
  cbn [fst snd] in *. destruct Hport as [Ho _].
  split; [exact Hb|]. split; [exact Hl|]. split; [exact Hq|].
  split; [intros _; split; assumption|]. split; assumption.
Qed.

End Reconnection.

(** ** Flash slots *)

Section FlashExtras.

Variable CP : commands_proto.
Variables READ_FLASH WRITE_FLASH : bytes.
Variable wait_for_data : M Z.

(** X20.  The slot methods fare as the page methods do.  [read_flash] and
    [write_flash] start with [self.send(CP.FLASH)] too: for every page,
    location and text, in every state of the handler and the line, each
    raises [AttributeError] and leaves the state as it found it.  Nothing is
    written and nothing is read; [write_flash] never reaches the write of its
    text, [wait_for_data] or [get_ack]. *)
Theorem flash_slots_raise_attribute_error :
  forall (page location : Z) (string_to_write : str) (st : State),
    read_flash CP READ_FLASH page location st =
      (Raise (AttributeError "'Handler' object has no attribute 'send'"), st)
    /\ write_flash CP WRITE_FLASH wait_for_data page location string_to_write st =
       (Finished (Raise (AttributeError "'Handler' object has no attribute 'send'")), st).
Proof. intros page location string_to_write st. split; reflexivity. Qed.

End FlashExtras.

(** ** Concrete runs for the properties above *)

Lemma burst_sends_same_bytes_as_direct_witness :
  let ops := [OpSend (VInt 5) None; OpSend (VInt 300) None; OpSend (VInt 70000) None] in
  let w := bench_world [[x01]] in
  Forall sendable ops
  /\ is_open (interface bench_handler) = true
  /\ burst_buffer bench_handler = []
  /\ input_queue_size bench_handler = 0
  /\ trace (snd (snd (run_all ops (set_load_burst false bench_handler, w)))) =
     [EvWrite [x05]; EvWrite [x2c; x01]; EvWrite [x70; x11; x01; x00]]
  /\ trace (snd (snd (run_all (ops ++ [OpSendBurst]) (set_load_burst true bench_handler, w)))) =
     [EvWrite [x05; x2c; x01; x70; x11; x01; x00]; EvRead 0].
Proof.
  intros ops w.
  assert (Hall : Forall sendable ops) by (repeat constructor; eexists; reflexivity).
  split; [exact Hall|]. split; [reflexivity|]. split; [reflexivity|]. split; [reflexivity|].
  destruct (burst_sends_same_bytes_as_direct ops bench_handler w Hall eq_refl eq_refl eq_refl)
    as (Hdirect & Hburst & _).
  split; [exact Hdirect | exact Hburst].
Defined.

Lemma closed_port_refuses_io_witness :
  let h := mkHandler [] false 0 [] (mkSerial (Some ttyACM0) 1000000 (Some 1%Q) (Some 1%Q) false) in
  is_open (interface h) = false
  /\ _receive 2 (h, bench_world [[x01; x02]]) =
     (Raise PortNotOpenError, (h, bench_world [[x01; x02]]))
  /\ get_ack (h, bench_world [[x01; x02]]) =
     (Raise PortNotOpenError, (h, bench_world [[x01; x02]])).
Proof.
  intros h. split; [reflexivity|].
  destruct (closed_port_refuses_io h (bench_world [[x01; x02]]) eq_refl)
    as (Hreceive & _ & Hdirect).
  split; [exact (Hreceive 2) | exact (proj1 (Hdirect eq_refl))].
Defined.

Lemma connect_success_state_witness :
  let run := connect bench_CP None 9600 5%Q (fresh, bench_world [pslab_reply]) in
  fst run = Ok tt
  /\ is_open (interface (fst (snd run))) = true
  /\ baudrate (interface (fst (snd run))) = 9600
  /\ timeout (interface (fst (snd run))) = Some 5%Q
  /\ exists device rest,
      comports (bench_world [pslab_reply]) = device :: rest
      /\ port (interface (fst (snd run))) = Some device.
Proof.
  intros run.
  assert (Hok : fst run = Ok tt) by reflexivity.
  split; [exact Hok|].
  exact (connect_success_state bench_CP None 9600 5%Q fresh (bench_world [pslab_reply]) Hok).
Defined.

Lemma connect_not_found_closes_witness :
  let run := connect bench_CP (Some ttyACM0) 9600 5%Q (fresh, bench_world [[x0a]]) in
  fst run = Raise (SerialException "Device not found.")
  /\ is_open (interface (fst (snd run))) = false.
Proof.
  intros run.
  assert (Hfail : fst run = Raise (SerialException "Device not found.")) by reflexivity.
  split; [exact Hfail|].
  exact (connect_not_found_closes bench_CP (Some ttyACM0) 9600 5%Q fresh
           (bench_world [[x0a]]) Hfail).
Defined.

Lemma connect_no_candidate_witness :
  let w := mkWorld [ttyACM0] [] [pslab_reply] [] [] in
  comports w = []
  /\ fst (connect bench_CP None 9600 5%Q (bench_handler, w)) =
     Raise (SerialException "Device not found.")
  /\ fst (snd (connect bench_CP None 9600 5%Q (bench_handler, w))) =
     mkHandler [] false 0 [] (mkSerial None 9600 (Some 5%Q) (Some 5%Q) false).
Proof.
  intros w. split; [reflexivity|].
  exact (connect_no_candidate bench_CP 9600 5%Q bench_handler w eq_refl).
Defined.

Lemma connect_unopenable_port_changes_nothing_witness :
  let st := (bench_handler, bench_world [pslab_reply]) in
  can_open "COM9" (snd st) = false
  /\ connect bench_CP (Some "COM9"%string) 9600 5%Q st =
     (Raise (SerialException "could not open port"), st).
Proof.
  intros st. split; [reflexivity|].
  exact (connect_unopenable_port_changes_nothing bench_CP "COM9" 9600 5%Q st eq_refl).
Defined.

Lemma connect_undecodable_reply_leaves_port_open_witness :
  let w := bench_world [[xff; x0a]] in
  can_open ttyACM0 w = true
  /\ rx w = [[xff; x0a]]
  /\ utf8_decode (line_of [xff; x0a]) = None
  /\ exists w',
      connect bench_CP (Some ttyACM0) 9600 5%Q (fresh, w) =
        (Raise UnicodeDecodeError,
         (set_interface (mkSerial (Some ttyACM0) 9600 (Some 5%Q) (Some 5%Q) true) fresh, w')).
Proof.
  intros w. split; [reflexivity|]. split; [reflexivity|]. split; [reflexivity|].
  destruct (connect_undecodable_reply_leaves_port_open bench_CP ttyACM0 9600 5%Q fresh w
              [xff; x0a] [] eq_refl eq_refl eq_refl) as (w' & Hrun & _).
  exists w'. exact Hrun.
Defined.

Lemma autodetect_stops_at_second_candidate_witness :
  let w := mkWorld [ttyACM0; ttyUSB0] [ttyUSB0; ttyACM0] [[x0a]; pslab_reply] [] [] in
  comports w = [ttyUSB0; ttyACM0]
  /\ can_open ttyUSB0 w = true
  /\ can_open ttyACM0 w = true
  /\ utf8_decode (line_of [x0a]) = Some [10]
  /\ any_expected [10] = false
  /\ exists w',
      connect bench_CP None 9600 5%Q (fresh, w) =
        (Raise (SerialException "Port is already open."),
         (set_interface (mkSerial (Some ttyACM0) 9600 (Some 5%Q) (Some 5%Q) true) fresh, w'))
      /\ rx w' = [pslab_reply].
Proof.
  intros w. split; [reflexivity|]. split; [reflexivity|]. split; [reflexivity|].
  split; [reflexivity|]. split; [reflexivity|].
  exact (autodetect_stops_at_second_candidate bench_CP 9600 5%Q fresh w ttyUSB0 ttyACM0 []
           [x0a] [pslab_reply] [10] eq_refl eq_refl eq_refl eq_refl eq_refl eq_refl).
Defined.

Lemma reconnect_ignores_every_setting_witness :
  let run := reconnect bench_CP (Some ttyUSB0) (Some 9600) (Some 5%Q)
                       (bench_handler, bench_world [pslab_reply]) in
  fst run = Ok tt
  /\ baudrate (interface (fst (snd run))) = 1000000
  /\ timeout (interface (fst (snd run))) = Some 1%Q
  /\ port (interface (fst (snd run))) = Some ttyACM0.
Proof.
  intros run.
  assert (Hok : fst run = Ok tt) by reflexivity.
  split; [exact Hok|].
  destruct (reconnect_ignores_every_setting bench_CP (Some ttyUSB0) (Some 9600) (Some 5%Q)
              bench_handler (bench_world [pslab_reply]) Hok) as (_ & Hb & Ht & _).
  split; [exact Hb|]. split; [exact Ht | reflexivity].
Defined.

Lemma init_starts_in_direct_mode_witness :
  let run := __init__ bench_CP (Some ttyACM0) 1000000 1%Q
                      (mkHandler [x05] true 1 [] (interface bench_handler),
                       bench_world [pslab_reply]) in
  fst run = Ok tt
  /\ burst_buffer (fst (snd run)) = []
  /\ load_burst (fst (snd run)) = false
  /\ input_queue_size (fst (snd run)) = 0.
Proof.
  intros run.
  assert (Hok : fst run = Ok tt) by reflexivity.
  split; [exact Hok|].
  destruct (init_starts_in_direct_mode bench_CP (Some ttyACM0) 1000000 1%Q _ Hok)
    as (Hb & Hl & Hq & _).
  split; [exact Hb|]. split; [exact Hl | exact Hq].
Defined.
